(** * mcp-auth-helper: the OAuth authorization-code + PKCE flow

    A shallow embedding of [src/oauth.ts], [src/server.ts],
    [src/storage.ts] and of [main] in the CLI entry point, followed by
    the properties of the flow.

    JavaScript strings are modelled by Rocq strings (sequences of
    bytes, UTF-8 for the few non-ASCII literals), buffers by lists of
    bytes, numbers by IEEE 754 doubles, and the values that
    [JSON.parse] and [res.json()] return by a type of JSON values, in
    which an object is the list of its own members and an array the
    list of its elements. A document read is known as the value that
    [JSON.parse] returned, a document written as the value given to
    [JSON.stringify]; the text of the file and the limits on the size
    of strings and arrays are not modelled. *)

From Stdlib Require Import ZArith NArith List String Ascii Bool Lia.
From Stdlib.Strings Require Import Byte.
From Stdlib Require Import DecimalString.
From Stdlib.Floats Require Import SpecFloat.
From stdpp Require Import base option strings list.

Set Warnings "-register-all".

Local Open Scope string_scope.
Local Open Scope Z_scope.

(* ================================================================== *)
(** * Part I: definitions                                               *)
(* ================================================================== *)

(** ** Buffers and their encodings *)

Module Buffer.

(** The base64url alphabet of RFC 4648, section 5. *)
Definition url_alphabet : list ascii :=
  list_ascii_of_string
    "ABCDEFGHIJKLMNOPQRSTUVWXYZabcdefghijklmnopqrstuvwxyz0123456789-_".

(** The standard base64 alphabet of RFC 4648, section 4. *)
Definition std_alphabet : list ascii :=
  list_ascii_of_string
    "ABCDEFGHIJKLMNOPQRSTUVWXYZabcdefghijklmnopqrstuvwxyz0123456789+/".

Definition digit (alphabet : list ascii) (i : N) : ascii :=
  nth (N.to_nat i) alphabet "A"%char.

(** The four 6-bit groups of a 24-bit quantum. *)
Definition quantum (a b c : byte) : N :=
  N.lor (N.shiftl (Byte.to_N a) 16)
        (N.lor (N.shiftl (Byte.to_N b) 8) (Byte.to_N c)).

Definition sextet (q : N) (k : N) : N :=
  N.land (N.shiftr q (18 - 6 * k)) 63.

(** [buf.toString("base64url")]: three bytes give four characters, a
    final group of one or two bytes gives two or three characters, and
    no padding is written. *)
Fixpoint base64url (bs : list byte) : string :=
  match bs with
  | [] => EmptyString
  | [a] =>
      let q := quantum a "000"%byte "000"%byte in
      String (digit url_alphabet (sextet q 0))
        (String (digit url_alphabet (sextet q 1)) EmptyString)
  | [a; b] =>
      let q := quantum a b "000"%byte in
      String (digit url_alphabet (sextet q 0))
        (String (digit url_alphabet (sextet q 1))
           (String (digit url_alphabet (sextet q 2)) EmptyString))
  | a :: b :: c :: rest =>
      let q := quantum a b c in
      String (digit url_alphabet (sextet q 0))
        (String (digit url_alphabet (sextet q 1))
           (String (digit url_alphabet (sextet q 2))
              (String (digit url_alphabet (sextet q 3)) (base64url rest))))
  end.

(** [buf.toString("base64")]: the padded standard encoding. *)
Fixpoint base64 (bs : list byte) : string :=
  match bs with
  | [] => EmptyString
  | [a] =>
      let q := quantum a "000"%byte "000"%byte in
      String (digit std_alphabet (sextet q 0))
        (String (digit std_alphabet (sextet q 1)) "==")
  | [a; b] =>
      let q := quantum a b "000"%byte in
      String (digit std_alphabet (sextet q 0))
        (String (digit std_alphabet (sextet q 1))
           (String (digit std_alphabet (sextet q 2)) "="))
  | a :: b :: c :: rest =>
      let q := quantum a b c in
      String (digit std_alphabet (sextet q 0))
        (String (digit std_alphabet (sextet q 1))
           (String (digit std_alphabet (sextet q 2))
              (String (digit std_alphabet (sextet q 3)) (base64 rest))))
  end.

(** The bytes of a string, as [hash.update(str)] reads them. *)
Definition from (s : string) : list byte := list_byte_of_string s.

End Buffer.

(** ** SHA-256 (FIPS 180-4), as [crypto.createHash("sha256")] computes it

    Words are 32-bit unsigned integers, held in [Z] with the wrap-around
    written out. *)

Module SHA256.

Definition wrap (x : Z) : Z := x mod 2 ^ 32.

Definition add32 (x y : Z) : Z := wrap (x + y).

Definition rotr (n x : Z) : Z :=
  wrap (Z.lor (Z.shiftr x n) (Z.shiftl x (32 - n))).

Definition Ch (x y z : Z) : Z :=
  Z.lxor (Z.land x y) (Z.land (Z.lxor x (2 ^ 32 - 1)) z).

Definition Maj (x y z : Z) : Z :=
  Z.lxor (Z.lxor (Z.land x y) (Z.land x z)) (Z.land y z).

Definition Sigma0 (x : Z) : Z :=
  Z.lxor (Z.lxor (rotr 2 x) (rotr 13 x)) (rotr 22 x).

Definition Sigma1 (x : Z) : Z :=
  Z.lxor (Z.lxor (rotr 6 x) (rotr 11 x)) (rotr 25 x).

Definition sigma0 (x : Z) : Z :=
  Z.lxor (Z.lxor (rotr 7 x) (rotr 18 x)) (Z.shiftr x 3).

Definition sigma1 (x : Z) : Z :=
  Z.lxor (Z.lxor (rotr 17 x) (rotr 19 x)) (Z.shiftr x 10).

(** The constants are fractional parts of roots of the first primes:
    the first 32 bits of the cube roots of the first 64 primes for [K],
    of the square roots of the first 8 primes for [H0]. *)
Definition is_prime (n : nat) : bool :=
  forallb (fun d => negb (Nat.eqb (Nat.modulo n d) 0)) (seq 2 (n - 2)).

Definition primes : list Z :=
  map Z.of_nat (filter (fun n => is_prime n) (seq 2 310)).

(** The integer cube root, found bit by bit from bit [n - 1] down. *)
Fixpoint cube_root (n : nat) (x r : Z) : Z :=
  match n with
  | O => r
  | S n' =>
      let r' := r + 2 ^ Z.of_nat n' in
      if r' * r' * r' <=? x then cube_root n' x r' else cube_root n' x r
  end.

Definition K : list Z :=
  map (fun p => wrap (cube_root 36 (p * 2 ^ 96) 0)) primes.

Definition H0 : list Z :=
  map (fun p => wrap (Z.sqrt (p * 2 ^ 64))) (firstn 8 primes).

Definition byteZ (b : byte) : Z := Z.of_N (Byte.to_N b).

Definition Zbyte (z : Z) : byte :=
  match Byte.of_N (Z.to_N (z mod 256)) with
  | Some b => b
  | None => "000"%byte
  end.

(** The message followed by the bit 1, zero bits up to 56 modulo 64
    bytes, and the 64-bit big-endian bit length. *)
Definition pad (msg : list byte) : list byte :=
  let len := Z.of_nat (length msg) in
  let zeros := Z.to_nat ((55 - len) mod 64) in
  let bits := 8 * len in
  msg ++ ["128"%byte] ++ repeat "000"%byte zeros
      ++ map (fun i => Zbyte (Z.shiftr bits (8 * (7 - Z.of_nat i)))) (seq 0 8).

Fixpoint words (bs : list byte) : list Z :=
  match bs with
  | a :: b :: c :: d :: rest =>
      Z.lor (Z.shiftl (byteZ a) 24)
        (Z.lor (Z.shiftl (byteZ b) 16)
           (Z.lor (Z.shiftl (byteZ c) 8) (byteZ d))) :: words rest
  | _ => []
  end.

(** The message schedule, newest word first. *)
Fixpoint extend (n : nat) (w : list Z) : list Z :=
  match n with
  | O => w
  | S n' =>
      extend n'
        (add32 (add32 (sigma1 (nth 1 w 0)) (nth 6 w 0))
               (add32 (sigma0 (nth 14 w 0)) (nth 15 w 0)) :: w)
  end.

Definition schedule (block : list Z) : list Z :=
  rev (extend 48 (rev block)).

Definition round (s : list Z) (kw : Z * Z) : list Z :=
  match s with
  | [a; b; c; d; e; f; g; h] =>
      let t1 := add32 (add32 (add32 h (Sigma1 e)) (add32 (Ch e f g) kw.1)) kw.2 in
      let t2 := add32 (Sigma0 a) (Maj a b c) in
      [add32 t1 t2; a; b; c; add32 d t1; e; f; g]
  | _ => s
  end.

Definition compress (h : list Z) (block : list Z) : list Z :=
  let s := fold_left round (combine K (schedule block)) h in
  map (fun p : Z * Z => add32 p.1 p.2) (combine h s).

Fixpoint blocks (n : nat) (ws : list Z) (h : list Z) : list Z :=
  match n with
  | O => h
  | S n' => blocks n' (skipn 16 ws) (compress h (firstn 16 ws))
  end.

Definition word_bytes (w : Z) : list byte :=
  [Zbyte (Z.shiftr w 24); Zbyte (Z.shiftr w 16); Zbyte (Z.shiftr w 8); Zbyte w].

Definition digest (msg : list byte) : list byte :=
  let ws := words (pad msg) in
  concat (map word_bytes (blocks (Nat.div (length ws) 16) ws H0)).

End SHA256.

(** ** JavaScript numbers

    A number is a double: [spec_float] with a precision of 53 bits and
    exponents below 1024. *)

Module Number.

Definition prec : Z := 53.
Definition emax : Z := 1024.

(** The double nearest to an integer, ties to even. *)
Definition of_Z (z : Z) : spec_float := binary_normalize prec emax z 0 false.

(** [x + y] *)
Definition add (x y : spec_float) : spec_float := SFadd prec emax x y.

(** [0], [-0] and [NaN] are the falsy numbers. *)
Definition falsy (x : spec_float) : bool :=
  match x with
  | S754_zero _ | S754_nan => true
  | _ => false
  end.

(** The integer of [lo .. hi] closest to [num / den], the even one of
    two that are equally close. *)
Definition closest (num den lo hi : Z) : Z :=
  let q := num / den in
  let r := num mod den in
  let c := if 2 * r <? den then q
           else if den <? 2 * r then q + 1
           else if Z.even q then q else q + 1 in
  Z.max lo (Z.min hi c).

Record Scaled := { lower : Z; value : Z; upper : Z; unit : Z }.

(** The number [m * 2^e] and the bounds of the interval of the reals
    that round to it, as multiples of [1 / unit] of [10^p]. The interval
    reaches half way to the neighbouring doubles; the one below is
    nearer when [m] is the least mantissa of its binade. *)
Definition scaled (m : positive) (e p : Z) : Scaled :=
  let below :=
    if (Z.pos m =? 2 ^ (prec - 1)) && (3 - emax - prec <? e) then 1 else 2 in
  let n := 2 ^ Z.max (e - 2) 0 * 10 ^ Z.max (- p) 0 in
  {| lower := (4 * Z.pos m - below) * n;
     value := 4 * Z.pos m * n;
     upper := (4 * Z.pos m + 2) * n;
     unit := 2 ^ Z.max (2 - e) 0 * 10 ^ Z.max p 0 |}.

(** The integers [s] for which [s * 10^p] rounds to [m * 2^e]: the
    bounds of the interval belong to it when [m] is even. *)
Definition range (m : positive) (e p : Z) : Z * Z :=
  let i := scaled m e p in
  if Z.even (Z.pos m) then
    ((lower i + unit i - 1) / unit i, upper i / unit i)
  else
    (lower i / unit i + 1, (upper i + unit i - 1) / unit i - 1).

(** The greatest exponent, from [p] downwards, for which some
    [s * 10^p] rounds to [m * 2^e]. *)
Fixpoint greatest_exponent (fuel : nat) (m : positive) (e p : Z) : Z :=
  match fuel with
  | O => p
  | S fuel' =>
      let '(a, b) := range m e p in
      if a <=? b then p else greatest_exponent fuel' m e (p - 1)
  end.

(** The integers [s] and [n] of Number::toString: [s * 10^(n - k)]
    rounds to the number, [s] has [k] digits, as few as possible, and
    among those [s * 10^(n - k)] is closest to the number. The search
    starts above the decimal exponent of the number, which is at most
    0.30103 times its binary exponent. *)
Definition shortest (m : positive) (e : Z) : Z * Z :=
  let bits := e + Z.log2 (Z.pos m) + 2 in
  let p := greatest_exponent 1200 m e (bits * 30103 / 100000 + 2) in
  let '(a, b) := range m e p in
  let k := Z.of_nat (String.length (NilZero.string_of_int (Z.to_int a))) in
  let i := scaled m e p in
  let s := closest (value i) (unit i) a b in
  let '(a', b') := range m e (p - 1) in
  let b' := Z.min b' (10 ^ k - 1) in
  let i' := scaled m e (p - 1) in
  let s' := closest (value i') (unit i') a' b' in
  if (a' <=? b')
     && (Z.abs (s' * unit i' - value i') <? Z.abs (10 * s * unit i' - value i'))
  then (s', k + p - 1) else (s, k + p).

Definition zeros (n : Z) : string :=
  string_of_list_ascii (repeat "0"%char (Z.to_nat n)).

Definition positive_toString (m : positive) (e : Z) : string :=
  let '(s, n) := shortest m e in
  let digits := NilZero.string_of_int (Z.to_int s) in
  let k := Z.of_nat (String.length digits) in
  if (k <=? n) && (n <=? 21) then digits ++ zeros (n - k)
  else if (0 <? n) && (n <=? 21) then
    substring 0 (Z.to_nat n) digits ++ "."
      ++ substring (Z.to_nat n) (Z.to_nat (k - n)) digits
  else if (-6 <? n) && (n <=? 0) then "0." ++ zeros (- n) ++ digits
  else
    let exponent :=
      (if n - 1 <? 0 then "-" else "+")
        ++ NilZero.string_of_int (Z.to_int (Z.abs (n - 1))) in
    if k =? 1 then digits ++ "e" ++ exponent
    else substring 0 1 digits ++ "." ++ substring 1 (Z.to_nat (k - 1)) digits
           ++ "e" ++ exponent.

(** [String(x)]: Number::toString with radix 10. *)
Definition toString (x : spec_float) : string :=
  match x with
  | S754_nan => "NaN"
  | S754_zero _ => "0"
  | S754_infinity false => "Infinity"
  | S754_infinity true => "-Infinity"
  | S754_finite false m e => positive_toString m e
  | S754_finite true m e => "-" ++ positive_toString m e
  end.

End Number.

(** ** JavaScript values read from JSON documents *)

Inductive JSON : Type :=
| JNull
| JBool (b : bool)
| JNum (x : spec_float)
| JStr (s : string)
| JArr (items : list JSON)
| JObj (fields : list (string * JSON)).

(** A value that may be [undefined]. *)
Abbreviation JSValue := (option JSON).

(** The decimal digits of an integer, as template literals print ports
    and status codes. *)
Definition dec (n : Z) : string := NilZero.string_of_int (Z.to_int n).

(** [!!v]: [undefined], [null], [false], [0], [NaN] and the empty
    string are falsy, everything else is truthy. *)
Definition truthy (v : JSValue) : bool :=
  match v with
  | None => false
  | Some JNull => false
  | Some (JBool b) => b
  | Some (JNum x) => negb (Number.falsy x)
  | Some (JStr s) => negb (String.eqb s "")
  | Some (JArr _) => true
  | Some (JObj _) => true
  end.

Definition truthy_string (s : option string) : bool :=
  match s with
  | Some s => negb (String.eqb s "")
  | None => false
  end.

(** The string that [String(v)] returns when it returns; this is the
    conversion applied by template literals, by [fetch] to its first
    argument and by [URLSearchParams] to values. *)
Fixpoint ToString (v : JSON) : string :=
  match v with
  | JNull => "null"
  | JBool true => "true"
  | JBool false => "false"
  | JNum x => Number.toString x
  | JStr s => s
  | JArr items =>
      (fix join (l : list JSON) : string :=
         match l with
         | [] => ""
         | x :: rest =>
             let sx := match x with JNull => "" | _ => ToString x end in
             match rest with
             | [] => sx
             | _ => sx ++ "," ++ join rest
             end
         end) items
  | JObj _ => "[object Object]"
  end.

(** Whether the conversion of [v] to a primitive returns. For an object
    it calls the method [toString], and throws when the object has a
    member of that name, which is no function; for an array it converts
    the elements. *)
Fixpoint printable (v : JSON) : bool :=
  match v with
  | JObj fields =>
      match
        (fix assoc_toString (l : list (string * JSON)) : JSValue :=
           match l with
           | [] => None
           | (k, x) :: rest =>
               if String.eqb "toString" k then Some x else assoc_toString rest
           end) fields
      with
      | Some _ => false
      | None => true
      end
  | JArr items =>
      (fix all (l : list JSON) : bool :=
         match l with
         | [] => true
         | x :: rest => printable x && all rest
         end) items
  | _ => true
  end.

Fixpoint assoc (k : string) (fields : list (string * JSON)) : JSValue :=
  match fields with
  | [] => None
  | (k', v) :: rest => if String.eqb k k' then Some v else assoc k rest
  end.

(** [fields] with the member [k] set to [v]: in place when there is
    one, at the end otherwise. *)
Fixpoint set_field (k : string) (v : JSON) (fields : list (string * JSON))
  : list (string * JSON) :=
  match fields with
  | [] => [(k, v)]
  | (k', v') :: rest =>
      if String.eqb k k' then (k, v) :: rest else (k', v') :: set_field k v rest
  end.

(** [items] with the element [i] set to [v]. An array that is too short
    grows, and the holes this leaves are filled with [null], which is
    how [JSON.stringify] writes them. *)
Fixpoint set_item (i : nat) (v : JSON) (items : list JSON) : list JSON :=
  match i, items with
  | O, [] => [v]
  | O, _ :: rest => v :: rest
  | S i', [] => JNull :: set_item i' v []
  | S i', x :: rest => x :: set_item i' v rest
  end.

(** The value of a string of decimal digits. *)
Fixpoint decimal_value (s : string) (acc : Z) : option Z :=
  match s with
  | EmptyString => Some acc
  | String c rest =>
      let n := Z.of_N (N_of_ascii c) in
      if (48 <=? n) && (n <=? 57) then decimal_value rest (10 * acc + (n - 48))
      else None
  end.

(** The index a property key denotes on an array: the key is the
    canonical decimal form of an integer below [2^32 - 1]. *)
Definition array_index (key : string) : option nat :=
  match decimal_value key 0 with
  | Some n =>
      let i := Z.to_nat n in
      if (n <? 2 ^ 32 - 1) && String.eqb (dec (Z.of_nat i)) key then Some i
      else None
  | None => None
  end.

(** The length of a string in UTF-16 code units, counted on its UTF-8
    bytes. *)
Fixpoint utf16_length (s : string) : Z :=
  match s with
  | EmptyString => 0
  | String c rest =>
      let n := Z.of_N (N_of_ascii c) in
      (if n <? 128 then 1 else if n <? 192 then 0 else if n <? 240 then 1 else 2)
      + utf16_length rest
  end.

(** ** Exceptions, results and the trace of effects *)

Inductive Exn : Type :=
| Error (message : string)
| TypeError (message : string)
| RangeError (message : string)
| SyntaxError (message : string)
| SystemError (message : string).

Definition message (e : Exn) : string :=
  match e with
  | Error m | TypeError m | RangeError m | SyntaxError m | SystemError m => m
  end.

(** The result of running an asynchronous function to its end: a value,
    a thrown exception (a rejected promise), or a promise that never
    settles. *)
Inductive Res (A : Type) : Type :=
| Ok (a : A)
| Throw (e : Exn)
| Pending.
Arguments Ok {A} a.
Arguments Throw {A} e.
Arguments Pending {A}.

Inductive Body : Type :=
| JsonBody (v : JSON)                      (* JSON.stringify(v) *)
| FormBody (params : list (string * string)). (* new URLSearchParams(params).toString() *)

Record RequestInit := {
  method : string;
  headers : list (string * string);
  body : Body
}.

Record Response := {
  status : Z;
  statusText : string;
  text : option string;       (* res.text(); None when it rejects *)
  json : JSON + Exn           (* res.json() *)
}.

Definition ok (res : Response) : bool :=
  (200 <=? status res) && (status res <=? 299).

(** ** Stored authentication state ([src/storage.ts]) *)

Record Tokens := {
  accessToken : JSON;
  refreshToken : JSValue;
  expiresAt : JSValue;
  scope : JSValue
}.

Record ClientInfo := {
  clientId : JSON;
  clientSecret : JSValue;
  clientIdIssuedAt : JSValue;
  clientSecretExpiresAt : JSValue
}.

Record AuthEntry := {
  tokens : option Tokens;
  clientInfo : option ClientInfo;
  codeVerifier : option string;
  oauthState : option string;
  serverUrl : option string
}.

(** An object of the program as a JSON value: a property whose value is
    [undefined] is no member, and the members come in the order in which
    the program creates the properties. *)
Definition member (k : string) (v : JSValue) : list (string * JSON) :=
  match v with
  | Some x => [(k, x)]
  | None => []
  end.

Definition tokens_value (t : Tokens) : JSON :=
  JObj (member "accessToken" (Some (accessToken t))
        ++ member "refreshToken" (refreshToken t)
        ++ member "expiresAt" (expiresAt t)
        ++ member "scope" (scope t)).

Definition clientInfo_value (c : ClientInfo) : JSON :=
  JObj (member "clientId" (Some (clientId c))
        ++ member "clientSecret" (clientSecret c)
        ++ member "clientIdIssuedAt" (clientIdIssuedAt c)
        ++ member "clientSecretExpiresAt" (clientSecretExpiresAt c)).

Definition entry_value (e : AuthEntry) : JSON :=
  JObj (member "clientInfo" (clientInfo_value <$> clientInfo e)
        ++ member "codeVerifier" (JStr <$> codeVerifier e)
        ++ member "oauthState" (JStr <$> oauthState e)
        ++ member "serverUrl" (JStr <$> serverUrl e)
        ++ member "tokens" (tokens_value <$> tokens e)).

(** ** The callback request as the handler reads it *)

Record IncomingMessage := { req_url : option string }.

(** What [server.listen(port, "127.0.0.1")] leads to: the server obtains
    the port, or Node emits the server's [error] event with the reason
    (for instance [EADDRINUSE] or [EACCES]). *)
Inductive BindResult : Type :=
| Bound
| BindFailed (code : option string) (msg : string).

(** What then reaches the program while it awaits the callback: a
    request, the timer, or an [error] event of the server with the code
    and the message of the error (for instance a failure to accept a
    connection). *)
Inductive Event : Type :=
| Request (req : IncomingMessage)
| TimerFired
| ServerError (code : option string) (msg : string).

(** ** Observable actions of the flow *)

Inductive Action : Type :=
| ReadFile (path : string)
| FetchRequest (url : string) (init : option RequestInit)
| MkDir (dir : string)
| WriteFile (path : string) (data : JSON) (mode : Z)
    (* writeFileSync(path, JSON.stringify(data, null, 2) + "\n", { mode }) *)
| OpenBrowser (url : string)
| Listen (port : Z) (host : string).

(** ** The world outside the program

    Everything the flow obtains from its environment: the URL library,
    the network, the file system, the random source, the clock, and
    what happens to the callback listener. *)

Record World := {
  URL_origin : string -> option string;
    (* new URL(s).origin; None when the constructor throws *)
  URL_resolve : string -> string -> option string;
    (* new URL(path, base).href *)
  URL_with_params : string -> list (string * string) -> option string;
    (* new URL(s), searchParams.set for each pair in turn, .href; None
       when the constructor throws *)
  searchParams_get : string -> string -> option string;
    (* new URL(reqUrl, base).searchParams.get(name) *)
  fetch : string -> option RequestInit -> Exn + Response;
  readFileSync : string -> string + Exn;
  JSON_parse : string -> JSON + Exn;
  path_dirname : string -> string;
  existsSync : string -> bool;
  mkdirSync : string -> option Exn;
  writeFileSync : string -> option Exn;
  randomBytes : nat -> list byte;
  randomUUID : string;
  Date_now_seconds : Z;        (* Math.floor(Date.now() / 1000) at step 8 *)
  listen : BindResult;         (* the outcome of server.listen *)
  events : list Event          (* what reaches the listener, in order *)
}.

(** Computations that log their actions and may throw or hang. *)
Definition M (A : Type) : Type := list Action * Res A.

Definition ret {A} (a : A) : M A := ([], Ok a).
Definition throw {A} (e : Exn) : M A := ([], Throw e).
Definition act (a : Action) : M unit := ([a], Ok tt).

Definition bind {A B} (m : M A) (k : A -> M B) : M B :=
  match m with
  | (t, Ok a) => let '(t', r) := k a in ((t ++ t')%list, r)
  | (t, Throw e) => (t, Throw e)
  | (t, Pending) => (t, Pending)
  end.

(** [try { m } catch (err) { h err }] *)
Definition try_catch {A} (m : M A) (h : Exn -> M A) : M A :=
  match m with
  | (t, Throw e) => let '(t', r) := h e in ((t ++ t')%list, r)
  | other => other
  end.

Notation "x <- m ;; k" := (bind m (fun x => k))
  (at level 100, m at level 99, right associativity, only parsing).
Notation "m ;;; k" := (bind m (fun _ => k))
  (at level 100, k at level 100, right associativity, only parsing).

Definition trace {A} (m : M A) : list Action := fst m.
Definition result {A} (m : M A) : Res A := snd m.

(** [v.k] for a value obtained from JSON: reading a property of [null]
    throws, objects give their own property or [undefined], and the
    other values have none of the properties read by this program. *)
Definition get_prop (v : JSON) (k : string) : M JSValue :=
  match v with
  | JNull =>
      throw (TypeError ("Cannot read properties of null (reading '" ++ k ++ "')"))
  | JObj fields => ret (assoc k fields)
  | _ => ret None
  end.

Definition conversion_failure : Exn :=
  TypeError "Cannot convert object to primitive value".

(** [String(v)] as a step of the program. *)
Definition to_string (v : JSON) : M string :=
  if printable v then ret (ToString v) else throw conversion_failure.

(** [n + v] for a number [n]: the sum of two doubles when [v] converts
    to a number without passing through a string, concatenation
    otherwise. *)
Definition js_add (n : spec_float) (v : JSON) : M JSON :=
  match v with
  | JNum m => ret (JNum (Number.add n m))
  | JBool b => ret (JNum (Number.add n (Number.of_Z (if b then 1 else 0))))
  | JNull => ret (JNum (Number.add n (Number.of_Z 0)))
  | _ => s <- to_string v ;; ret (JStr (Number.toString n ++ s))
  end.

(** [target[key] = entry] for an object [entry] of the program, in strict
    mode, on a value obtained from JSON; the result is [target] as
    [JSON.stringify] reads it afterwards.
    - On an object the member is set, except that the key [__proto__],
      unless it is an own member, reaches the setter of
      [Object.prototype], which changes the prototype and adds no member.
    - On an array an index sets the element, [length] is refused because
      an object is no length, [__proto__] changes the prototype, and any
      other key adds a property that is not an element.
    - On [null] the assignment throws. On a boolean, a number or a string
      it throws as well, except for [__proto__], where the setter returns
      without doing anything. *)
Definition assign (target : JSON) (key : string) (entry : JSON) : M JSON :=
  match target with
  | JObj fields =>
      match assoc key fields with
      | Some _ => ret (JObj (set_field key entry fields))
      | None =>
          if String.eqb key "__proto__" then ret target
          else ret (JObj (set_field key entry fields))
      end
  | JArr items =>
      match array_index key with
      | Some i => ret (JArr (set_item i entry items))
      | None =>
          if String.eqb key "length" then throw (RangeError "Invalid array length")
          else ret target
      end
  | JNull =>
      throw (TypeError ("Cannot set properties of null (setting '" ++ key ++ "')"))
  | JBool _ | JNum _ | JStr _ =>
      if String.eqb key "__proto__" then ret target
      else
        let own :=
          match target with
          | JStr s =>
              String.eqb key "length"
              || match array_index key with
                 | Some i => Z.of_nat i <? utf16_length s
                 | None => false
                 end
          | _ => false
          end in
        let type :=
          match target with
          | JBool _ => "boolean"
          | JNum _ => "number"
          | _ => "string"
          end in
        throw (TypeError
                 (if own then
                    "Cannot assign to read only property '" ++ key ++ "' of string '"
                      ++ ToString target ++ "'"
                  else
                    "Cannot create property '" ++ key ++ "' on " ++ type ++ " '"
                      ++ ToString target ++ "'"))
  end.

(** ** [src/oauth.ts] *)

Module Oauth.

Record OAuthEndpoints := {
  authorizationEndpoint : JSON;
  tokenEndpoint : JSON;
  registrationEndpoint : JSValue
}.

Record PKCEPair := {
  codeVerifier : string;
  codeChallenge : string
}.

Record RegisteredClient := {
  clientId : JSON;
  clientSecret : JSValue;
  clientIdIssuedAt : JSValue;
  clientSecretExpiresAt : JSValue
}.

Record TokenResponse := {
  access_token : JSON;
  refresh_token : JSValue;
  expires_in : JSValue;
  scope : JSValue;
  token_type : JSON
}.

(** The error thrown for a response that is not [ok]. *)
Definition http_failure (url : string) (res : Response) : Exn :=
  let body := default "" (text res) in
  Error ("HTTP " ++ dec (status res) ++ " " ++ statusText res
         ++ " from " ++ url
         ++ (if negb (String.eqb body "") then ": " ++ body else "")).

Definition fetchJSON (w : World) (url : string) (options : option RequestInit)
  : M JSON :=
  act (FetchRequest url options) ;;;
  match fetch w url options with
  | inl e => throw e
  | inr res =>
      if negb (ok res) then throw (http_failure url res)
      else
        match json res with
        | inl v => ret v
        | inr e => throw e
        end
  end.

Definition well_known_path : string := "/.well-known/oauth-authorization-server".

(** Lines 43-49: the two [URL] constructions, outside the [try]. *)
Definition wellKnownUrl (w : World) (serverUrl : string) : M string :=
  match URL_origin w serverUrl with
  | None => throw (TypeError "Invalid URL")
  | Some origin =>
      match URL_resolve w well_known_path origin with
      | None => throw (TypeError "Invalid URL")
      | Some href => ret href
      end
  end.

Definition missing_fields : string :=
  "OAuth metadata missing required fields (authorization_endpoint, token_endpoint)".

Definition discovery_failure (wellKnown : string) (err : Exn) : Exn :=
  Error ("Failed to discover OAuth endpoints from " ++ wellKnown ++ ": " ++ message err).

Definition discoverOAuthEndpoints (w : World) (serverUrl : string)
  : M OAuthEndpoints :=
  wellKnown <- wellKnownUrl w serverUrl ;;
  try_catch
    (metadata <- fetchJSON w wellKnown None ;;
     authorization_endpoint <- get_prop metadata "authorization_endpoint" ;;
     token_endpoint <- get_prop metadata "token_endpoint" ;;
     match authorization_endpoint, token_endpoint with
     | Some a, Some t =>
         if negb (truthy (Some a)) || negb (truthy (Some t)) then
           throw (Error missing_fields)
         else
           registration_endpoint <- get_prop metadata "registration_endpoint" ;;
           ret {| authorizationEndpoint := a;
                  tokenEndpoint := t;
                  registrationEndpoint := registration_endpoint |}
     | _, _ => throw (Error missing_fields)
     end)
    (fun err => throw (discovery_failure wellKnown err)).

Definition registration_body (redirectUri clientName : string) : JSON :=
  JObj [ ("redirect_uris", JArr [JStr redirectUri]);
         ("client_name", JStr clientName);
         ("grant_types", JArr [JStr "authorization_code"; JStr "refresh_token"]);
         ("response_types", JArr [JStr "code"]);
         ("token_endpoint_auth_method", JStr "none") ].

(** The endpoint is whatever the metadata hold: [fetch] converts it to a
    string, and rejects when the conversion throws. *)
Definition registerClient (w : World) (registrationEndpoint : JSON)
    (redirectUri clientName : string) : M RegisteredClient :=
  url <- to_string registrationEndpoint ;;
  result <- fetchJSON w url
              (Some {| method := "POST";
                       headers := [("Content-Type", "application/json")];
                       body := JsonBody (registration_body redirectUri clientName) |}) ;;
  client_id <- get_prop result "client_id" ;;
  match client_id with
  | Some cid =>
      if negb (truthy (Some cid)) then
        throw (Error "Client registration did not return a client_id")
      else
        client_secret <- get_prop result "client_secret" ;;
        client_id_issued_at <- get_prop result "client_id_issued_at" ;;
        client_secret_expires_at <- get_prop result "client_secret_expires_at" ;;
        ret {| clientId := cid;
               clientSecret := client_secret;
               clientIdIssuedAt := client_id_issued_at;
               clientSecretExpiresAt := client_secret_expires_at |}
  | None => throw (Error "Client registration did not return a client_id")
  end.

(** The characters kept by [.replace(/[^a-zA-Z0-9\-._~]/g, "")]. *)
Definition unreserved (c : ascii) : bool :=
  let n := N_of_ascii c in
  ((97 <=? n) && (n <=? 122) || (65 <=? n) && (n <=? 90)
   || (48 <=? n) && (n <=? 57)
   || (n =? 45) || (n =? 46) || (n =? 95) || (n =? 126))%N.

Fixpoint strip_disallowed (s : string) : string :=
  match s with
  | EmptyString => EmptyString
  | String c rest =>
      if unreserved c then String c (strip_disallowed rest)
      else strip_disallowed rest
  end.

(** [generatePKCE], as a function of the bytes drawn by
    [crypto.randomBytes(32)]. *)
Definition generatePKCE (verifierBytes : list byte) : PKCEPair :=
  let codeVerifier := strip_disallowed (Buffer.base64url verifierBytes) in
  let hash := SHA256.digest (Buffer.from codeVerifier) in
  let codeChallenge := Buffer.base64url hash in
  {| codeVerifier := codeVerifier; codeChallenge := codeChallenge |}.

(** [new URL] converts the endpoint and parses it; [searchParams.set]
    converts the client identifier. *)
Definition buildAuthorizationUrl (w : World) (authorizationEndpoint clientId : JSON)
    (redirectUri codeChallenge state : string) : M string :=
  url <- to_string authorizationEndpoint ;;
  match URL_with_params w url [] with
  | None => throw (TypeError "Invalid URL")
  | Some _ =>
      client_id <- to_string clientId ;;
      match URL_with_params w url
              [ ("response_type", "code");
                ("client_id", client_id);
                ("redirect_uri", redirectUri);
                ("code_challenge", codeChallenge);
                ("code_challenge_method", "S256");
                ("state", state) ] with
      | Some href => ret href
      | None => throw (TypeError "Invalid URL")
      end
  end.

(** [a || b] *)
Definition or_else (a : JSValue) (b : JSON) : JSON :=
  match a with
  | Some v => if truthy (Some v) then v else b
  | None => b
  end.

(** [new URLSearchParams] converts the client identifier, [fetch] the
    endpoint. *)
Definition exchangeCodeForTokens (w : World) (tokenEndpoint : JSON)
    (code codeVerifier : string) (clientId : JSON) (redirectUri : string)
  : M TokenResponse :=
  client_id <- to_string clientId ;;
  let body := FormBody [ ("grant_type", "authorization_code");
                         ("code", code);
                         ("code_verifier", codeVerifier);
                         ("client_id", client_id);
                         ("redirect_uri", redirectUri) ] in
  url <- to_string tokenEndpoint ;;
  result <- fetchJSON w url
              (Some {| method := "POST";
                       headers := [("Content-Type", "application/x-www-form-urlencoded")];
                       body := body |}) ;;
  accessToken <- get_prop result "access_token" ;;
  match accessToken with
  | Some tok =>
      if negb (truthy (Some tok)) then
        throw (Error "Token response missing access_token")
      else
        refresh_token <- get_prop result "refresh_token" ;;
        expires_in <- get_prop result "expires_in" ;;
        scope <- get_prop result "scope" ;;
        token_type <- get_prop result "token_type" ;;
        ret {| access_token := tok;
               refresh_token := refresh_token;
               expires_in := expires_in;
               scope := scope;
               token_type := or_else token_type (JStr "Bearer") |}
  | None => throw (Error "Token response missing access_token")
  end.

End Oauth.

(** ** [src/server.ts]: the callback listener

    The promise executor of [startCallbackServer] sets up three handlers
    over the shared variables [settled], [timeout] and [server]; Node
    runs each handler to completion, one event at a time. *)

Module Server.

Record CallbackResult := {
  code : string;
  state : string
}.

Inductive Settlement : Type :=
| Resolved (r : CallbackResult)   (* resolve({ code, state }) *)
| Rejected (e : Exn).             (* reject(new Error(...)) *)

Inductive Page : Type :=
| SUCCESS_HTML
| ERROR_HTML
| Plain (s : string).

Record Listener := {
  settled : bool;                  (* let settled *)
  timeout : bool;                  (* the timer is still pending *)
  listening : bool;                (* the server holds the port *)
  delivered : list Settlement;     (* calls made to resolve / reject *)
  responses : list (Z * Page)      (* res.writeHead(status); res.end(page) *)
}.

Definition init (bound : bool) : Listener :=
  {| settled := false; timeout := true; listening := bound;
     delivered := []; responses := [] |}.

Definition respond (status : Z) (page : Page) (st : Listener) : Listener :=
  {| settled := settled st; timeout := timeout st; listening := listening st;
     delivered := delivered st;
     responses := (responses st ++ [(status, page)])%list |}.

(** [clearTimeout(timeout)] *)
Definition clearTimeout (st : Listener) : Listener :=
  {| settled := settled st; timeout := false; listening := listening st;
     delivered := delivered st; responses := responses st |}.

(** [server.close()] *)
Definition close (st : Listener) : Listener :=
  {| settled := settled st; timeout := timeout st; listening := false;
     delivered := delivered st; responses := responses st |}.

Definition cleanup (st : Listener) : Listener := close (clearTimeout st).

(** [if (!settled) { settled = true; resolve(...) or reject(...) }] *)
Definition settle (s : Settlement) (st : Listener) : Listener :=
  if negb (settled st) then
    {| settled := true; timeout := timeout st; listening := listening st;
       delivered := (delivered st ++ [s])%list; responses := responses st |}
  else st.

Definition authorization_error (error : string) (errorDescription : option string)
  : Exn :=
  Error ("Authorization error: " ++ error
         ++ (if truthy_string errorDescription
             then " - " ++ default "" errorDescription else "")).

(** The request handler given to [http.createServer]. *)
Definition on_request (w : World) (port : Z) (req : IncomingMessage)
    (st : Listener) : Listener :=
  match req_url req with
  | Some url =>
      if negb (String.prefix "/callback" url) then respond 404 (Plain "Not found") st
      else
        let code := searchParams_get w url "code" in
        let state := searchParams_get w url "state" in
        let error := searchParams_get w url "error" in
        let errorDescription := searchParams_get w url "error_description" in
        if truthy_string error then
          settle (Rejected (authorization_error (default "" error) errorDescription))
            (cleanup (respond 200 ERROR_HTML st))
        else
          match code, state with
          | Some c, Some s =>
              if negb (truthy_string (Some c)) || negb (truthy_string (Some s))
              then respond 400 ERROR_HTML st
              else settle (Resolved {| code := c; state := s |})
                     (cleanup (respond 200 SUCCESS_HTML st))
          | _, _ => respond 400 ERROR_HTML st
          end
  | None => respond 404 (Plain "Not found") st
  end.

Definition timed_out : Exn :=
  Error "Timed out waiting for authorization callback (120s)".

(** The [setTimeout] callback; a cleared timer never fires. *)
Definition on_timeout (st : Listener) : Listener :=
  if timeout st then settle (Rejected timed_out) (cleanup st) else st.

(** The handler of the server's [error] event, whenever the event
    occurs. It cancels the timer and rejects; it does not call
    [server.close()]. *)
Definition on_error (port : Z) (code : option string) (msg : string)
    (st : Listener) : Listener :=
  settle
    (Rejected
       (if bool_decide (code = Some "EADDRINUSE") then
          Error ("Port " ++ dec port
                 ++ " is already in use. Try a different port with --callback-port")
        else Error ("Failed to start callback server: " ++ msg)))
    (clearTimeout st).

Definition step (w : World) (port : Z) (st : Listener) (ev : Event) : Listener :=
  match ev with
  | Request req => on_request w port req st
  | TimerFired => on_timeout st
  | ServerError code msg => on_error port code msg st
  end.

(** The listener once [server.listen] has had its outcome: a failure
    to obtain the port is the first [error] event. *)
Definition start (port : Z) (b : BindResult) : Listener :=
  match b with
  | Bound => init true
  | BindFailed code msg => on_error port code msg (init false)
  end.

Definition run (w : World) (port : Z) (b : BindResult) (evs : list Event) : Listener :=
  fold_left (step w port) evs (start port b).

(** What the promise returned by [startCallbackServer] settles to: a
    promise takes the first call to [resolve] or [reject]. *)
Definition outcome (st : Listener) : option Settlement := head (delivered st).

Definition startCallbackServer (w : World) (port : Z) : M CallbackResult :=
  act (Listen port "127.0.0.1") ;;;
  match outcome (run w port (listen w) (events w)) with
  | Some (Resolved r) => ret r
  | Some (Rejected e) => throw e
  | None => ([], Pending)
  end.

(** What the handlers maintain: [settled] tells whether an outcome has
    been delivered, there is never more than one, and a timer that is no
    longer pending has been followed by a settlement. *)
Record inv (st : Listener) : Prop := {
  inv_delivered : length (delivered st) = if settled st then 1%nat else 0%nat;
  inv_timer : timeout st = false -> settled st = true
}.

End Server.

(** ** [src/storage.ts] *)

Module Storage.

Definition readAuthFile (w : World) (filePath : string) : M JSON :=
  try_catch
    (act (ReadFile filePath) ;;;
     match readFileSync w filePath with
     | inr e => throw e
     | inl content =>
         match JSON_parse w content with
         | inr e => throw e
         | inl data => ret data
         end
     end)
    (fun _ => ret (JObj [])).

Definition writeAuthFile (w : World) (data : JSON) (filePath : string)
  : M unit :=
  let dir := path_dirname w filePath in
  (if negb (existsSync w dir) then
     act (MkDir dir) ;;;
     match mkdirSync w dir with
     | Some e => throw e
     | None => ret tt
     end
   else ret tt) ;;;
  act (WriteFile filePath data 384 (* 0o600 *)) ;;;
  match writeFileSync w filePath with
  | Some e => throw e
  | None => ret tt
  end.

End Storage.

(** ** The flow of [main], after argument parsing *)

Record Config := {
  serverName : string;
  url : string;
  clientName : string;
  callbackPort : Z;
  output : string
}.

Definition no_registration : Exn :=
  Error "Server does not support dynamic client registration (no registration_endpoint in metadata)".

Definition state_mismatch : Exn :=
  Error "OAuth state mismatch — possible CSRF attack".

(** The entry written at the checkpoint (step 4). *)
Definition checkpoint_entry (config : Config) (client : Oauth.RegisteredClient)
    (pkce : Oauth.PKCEPair) (state : string) : AuthEntry :=
  {| tokens := None;
     clientInfo := Some {| clientId := Oauth.clientId client;
                           clientSecret := Oauth.clientSecret client;
                           clientIdIssuedAt := Oauth.clientIdIssuedAt client;
                           clientSecretExpiresAt := Oauth.clientSecretExpiresAt client |};
     codeVerifier := Some (Oauth.codeVerifier pkce);
     oauthState := Some state;
     serverUrl := Some (url config) |}.

(** [expires_in ? now + expires_in : undefined] *)
Definition expiry (now : Z) (expires_in : JSValue) : M JSValue :=
  match expires_in with
  | Some e =>
      if truthy (Some e) then x <- js_add (Number.of_Z now) e ;; ret (Some x)
      else ret None
  | None => ret None
  end.

(** The same object after step 8: [entry.tokens = ...], then the two
    [delete]s. *)
Definition final_entry (entry : AuthEntry) (expiresAt : JSValue)
    (tokenResponse : Oauth.TokenResponse) : AuthEntry :=
  {| tokens := Some {| accessToken := Oauth.access_token tokenResponse;
                       refreshToken := Oauth.refresh_token tokenResponse;
                       expiresAt := expiresAt;
                       scope := Oauth.scope tokenResponse |};
     clientInfo := clientInfo entry;
     codeVerifier := None;
     oauthState := None;
     serverUrl := serverUrl entry |}.

(** Of the lines that [main] prints, those that convert a value obtained
    from JSON are kept as the conversion they make, which can throw;
    what is printed is not recorded. *)
Definition main (w : World) (config : Config) : M unit :=
  let redirectUri := "http://localhost:" ++ dec (callbackPort config) ++ "/callback" in
  (* Step 1 *)
  authData <- Storage.readAuthFile w (output config) ;;
  (* Step 2 *)
  endpoints <- Oauth.discoverOAuthEndpoints w (url config) ;;
  to_string (Oauth.authorizationEndpoint endpoints) ;;;
  to_string (Oauth.tokenEndpoint endpoints) ;;;
  (* Step 3 *)
  match Oauth.registrationEndpoint endpoints with
  | None => throw no_registration
  | Some registrationEndpoint =>
    if negb (truthy (Some registrationEndpoint)) then throw no_registration
    else
      to_string registrationEndpoint ;;;
      client <- Oauth.registerClient w registrationEndpoint redirectUri
                  (clientName config) ;;
      to_string (Oauth.clientId client) ;;;
      (* Step 4 *)
      let pkce := Oauth.generatePKCE (randomBytes w 32) in
      let state := randomUUID w in
      let entry := checkpoint_entry config client pkce state in
      authData <- assign authData (serverName config) (entry_value entry) ;;
      Storage.writeAuthFile w authData (output config) ;;;
      (* Step 5 *)
      authUrl <- Oauth.buildAuthorizationUrl w (Oauth.authorizationEndpoint endpoints)
                   (Oauth.clientId client) redirectUri (Oauth.codeChallenge pkce) state ;;
      act (OpenBrowser authUrl) ;;;
      (* Step 6 *)
      callback <- Server.startCallbackServer w (callbackPort config) ;;
      if negb (String.eqb (Server.state callback) state) then throw state_mismatch
      else
        (* Step 7 *)
        tokenResponse <- Oauth.exchangeCodeForTokens w (Oauth.tokenEndpoint endpoints)
                           (Server.code callback) (Oauth.codeVerifier pkce)
                           (Oauth.clientId client) redirectUri ;;
        (* Step 8 *)
        let now := Date_now_seconds w in
        expiresAt <- expiry now (Oauth.expires_in tokenResponse) ;;
        let entry := final_entry entry expiresAt tokenResponse in
        authData <- assign authData (serverName config) (entry_value entry) ;;
        Storage.writeAuthFile w authData (output config)
  end.

(** ** The challenge as the specification words it

    [base64url(SHA-256(codeVerifier))] with no padding, following the
    procedure of RFC 7636, Appendix A: encode in standard base64, drop
    the padding, replace [+] by [-] and [/] by [_]. *)

Module Spec.

Fixpoint strip_padding (s : string) : string :=
  match s with
  | EmptyString => EmptyString
  | String c rest =>
      if Ascii.eqb c "="%char then EmptyString else String c (strip_padding rest)
  end.

Definition url_char (c : ascii) : ascii :=
  if Ascii.eqb c "+"%char then "-"%char
  else if Ascii.eqb c "/"%char then "_"%char
  else c.

Fixpoint to_url (s : string) : string :=
  match s with
  | EmptyString => EmptyString
  | String c rest => String (url_char c) (to_url rest)
  end.

Definition base64url_nopad (bs : list byte) : string :=
  to_url (strip_padding (Buffer.base64 bs)).

Definition code_challenge (verifier : string) : string :=
  base64url_nopad (SHA256.digest (Buffer.from verifier)).

End Spec.

(** Every character of [s] satisfies [p]. *)
Fixpoint all_chars (p : ascii -> bool) (s : string) : bool :=
  match s with
  | EmptyString => true
  | String c rest => p c && all_chars p rest
  end.

Definition no_padding (s : string) : bool :=
  all_chars (fun c => negb (Ascii.eqb c "="%char)) s.


(** ** Vocabulary of the statements *)

(** The property [k] of a document, [undefined] when there is none. *)
Definition field (v : JSON) (k : string) : JSValue :=
  match v with
  | JObj fields => assoc k fields
  | _ => None
  end.


(** Requests are told apart by their body: registration posts a JSON
    document, token exchange posts a form, discovery has no body. *)
Definition is_registration_request (a : Action) : bool :=
  match a with
  | FetchRequest _ (Some init) =>
      match body init with JsonBody _ => true | FormBody _ => false end
  | _ => false
  end.

Definition is_token_request (a : Action) : bool :=
  match a with
  | FetchRequest _ (Some init) =>
      match body init with FormBody _ => true | JsonBody _ => false end
  | _ => false
  end.

Definition is_listen (a : Action) : bool :=
  match a with
  | Listen _ _ => true
  | _ => false
  end.

Definition is_file_action (a : Action) : bool :=
  match a with
  | MkDir _ | WriteFile _ _ _ => true
  | _ => false
  end.

(** The documents written to the auth file, in order, each as the value
    given to [JSON.stringify]. *)
Fixpoint writes (t : list Action) : list (string * JSON) :=
  match t with
  | [] => []
  | WriteFile path data _ :: rest => (path, data) :: writes rest
  | _ :: rest => writes rest
  end.

(** The entry of a document under a server name: the member of an
    object, the element of an array. *)
Definition entry_at (doc : JSON) (name : string) : JSValue :=
  match doc with
  | JObj fields => assoc name fields
  | JArr items =>
      match array_index name with
      | Some i => items !! i
      | None => None
      end
  | _ => None
  end.

Definition is_array (doc : JSON) : bool :=
  match doc with
  | JArr _ => true
  | _ => false
  end.

(** A written document agrees with [before] on every key but [name]:
    what [before] holds under another key is unchanged, and unless
    [before] is an array, whose holes are written as [null], a key that
    [before] does not have is not added. *)
Definition only_changes (name : string) (before : JSON)
    (written : string * JSON) : Prop :=
  forall k : string, k <> name ->
    is_array before = false \/ entry_at before k <> None ->
    entry_at written.2 k = entry_at before k.

(** The assignment [authData[name] = entry] gives [authData] a member
    or an element under [name]: [authData] is an object and [name] is
    not [__proto__] (or is an own member), or [authData] is an array and
    [name] an index. *)
Definition keeps_entry (authData : JSON) (name : string) : bool :=
  match authData with
  | JObj fields =>
      match assoc name fields with
      | Some _ => true
      | None => negb (String.eqb name "__proto__")
      end
  | JArr _ =>
      match array_index name with
      | Some _ => true
      | None => false
      end
  | _ => false
  end.





(** ** Worlds for the scenarios of the specification *)

Module Scenario.

Definition uuid : string := "123e4567-e89b-42d3-a456-426614174000".

Definition metadata : JSON :=
  JObj [ ("authorization_endpoint", JStr "https://ex.com/auth");
         ("token_endpoint", JStr "https://ex.com/token");
         ("registration_endpoint", JStr "https://ex.com/register") ].

Definition metadata_without_registration : JSON :=
  JObj [ ("authorization_endpoint", JStr "https://ex.com/auth");
         ("token_endpoint", JStr "https://ex.com/token") ].

Definition registration : JSON := JObj [ ("client_id", JStr "cid123") ].

Definition token : JSON :=
  JObj [ ("access_token", JStr "tok1");
         ("expires_in", JNum (Number.of_Z 3600));
         ("token_type", JStr "Bearer") ].

Definition token_with_empty_type : JSON :=
  JObj [ ("access_token", JStr "tok1");
         ("refresh_token", JStr "ref1");
         ("token_type", JStr "") ].

Definition well_known : string :=
  "https://ex.com/.well-known/oauth-authorization-server".

Definition respond (v : JSON) : Exn + Response :=
  inr {| status := 200; statusText := "OK"; text := None; json := inl v |}.

Definition not_found : Exn + Response :=
  inr {| status := 404; statusText := "Not Found"; text := Some "no such page";
         json := inr (SyntaxError "Unexpected token 'n'") |}.

Definition hex (n : N) : ascii :=
  nth (N.to_nat n) (list_ascii_of_string "0123456789ABCDEF") "0"%char.

(** The serialisation of [URLSearchParams]: letters, digits and
    [*-._] are kept, a space becomes [+], other bytes are escaped. *)
Fixpoint form_encode (s : string) : string :=
  match s with
  | EmptyString => EmptyString
  | String c rest =>
      let n := N_of_ascii c in
      if ((97 <=? n) && (n <=? 122) || (65 <=? n) && (n <=? 90)
          || (48 <=? n) && (n <=? 57)
          || (n =? 42) || (n =? 45) || (n =? 46) || (n =? 95))%N
      then String c (form_encode rest)
      else if (n =? 32)%N then String "+"%char (form_encode rest)
      else String "%"%char
             (String (hex (N.shiftr n 4))
                (String (hex (N.land n 15)) (form_encode rest)))
  end.

Fixpoint query (params : list (string * string)) : string :=
  match params with
  | [] => ""
  | [(k, v)] => form_encode k ++ "=" ++ form_encode v
  | (k, v) :: rest => form_encode k ++ "=" ++ form_encode v ++ "&" ++ query rest
  end.

Definition auth_path : string := "/home/u/.local/share/opencode/mcp-auth.json".

Definition notion : AuthEntry :=
  {| tokens := Some {| accessToken := JStr "notion-token"; refreshToken := None;
                       expiresAt := Some (JNum (Number.of_Z 1700000000));
                       scope := None |};
     clientInfo := Some {| clientId := JStr "notion-client"; clientSecret := None;
                           clientIdIssuedAt := None; clientSecretExpiresAt := None |};
     codeVerifier := None; oauthState := None;
     serverUrl := Some "https://mcp.notion.example/mcp" |}.

Definition existing : JSON := JObj [ ("notion", entry_value notion) ].

(** A callback request carrying [code] and [state]. *)
Definition callback (code state : string) : Event :=
  Request {| req_url := Some ("/callback?code=" ++ code ++ "&state=" ++ state) |}.

Definition bad_request : Event :=
  Request {| req_url := Some "/callback?code=authcode1" |}.

Definition favicon : Event := Request {| req_url := Some "/favicon.ico" |}.

(** The worlds differ in what the servers answer and in what reaches
    the listener. *)
Definition world (discovery : Exn + Response) (token_response : JSON)
    (b : BindResult) (evs : list Event) : World :=
  {| URL_origin := fun s =>
       if String.eqb s "https://ex.com/mcp" then Some "https://ex.com" else None;
     URL_resolve := fun path base => Some (base ++ path);
     URL_with_params := fun s params => Some (s ++ "?" ++ query params);
     searchParams_get := fun u name =>
       if String.eqb u ("/callback?code=authcode1&state=" ++ uuid) then
         if String.eqb name "code" then Some "authcode1"
         else if String.eqb name "state" then Some uuid else None
       else if String.eqb u "/callback?code=abc&state=X" then
         if String.eqb name "code" then Some "abc"
         else if String.eqb name "state" then Some "X" else None
       else if String.eqb u "/callback?code=authcode1" then
         if String.eqb name "code" then Some "authcode1" else None
       else None;
     fetch := fun u _ =>
       if String.eqb u well_known then discovery
       else if String.eqb u "https://ex.com/register" then respond registration
       else if String.eqb u "https://ex.com/token" then respond token_response
       else not_found;
     readFileSync := fun path =>
       if String.eqb path auth_path then inl "contents of mcp-auth.json"
       else inr (SystemError "ENOENT: no such file or directory");
     JSON_parse := fun content =>
       if String.eqb content "contents of mcp-auth.json" then inl existing
       else inr (SyntaxError "Unexpected token");
     path_dirname := fun _ => "/home/u/.local/share/opencode";
     existsSync := fun _ => true;
     mkdirSync := fun _ => None;
     writeFileSync := fun _ => None;
     randomBytes := fun n =>
       map (fun i => SHA256.Zbyte (Z.of_nat (37 * i + 11))) (seq 0 n);
     randomUUID := uuid;
     Date_now_seconds := 1762000000;
     listen := b;
     events := evs |}.

(** Scenario A: every step succeeds. *)
Definition A : World :=
  world (respond metadata) token Bound [favicon; callback "authcode1" uuid].

(** Scenario B: the well-known endpoint answers 404. *)
Definition B : World := world not_found token Bound [].

(** The callback carries a state that was not generated by this flow. *)
Definition forged : World :=
  world (respond metadata) token Bound [callback "abc" "X"].

(** The server advertises no registration endpoint. *)
Definition unsupported : World :=
  world (respond metadata_without_registration) token Bound
    [callback "authcode1" uuid].

(** The token endpoint answers with an empty [token_type]. *)
Definition empty_token_type : World :=
  world (respond metadata) token_with_empty_type Bound [callback "authcode1" uuid].

Definition config : Config :=
  {| serverName := "figma";
     url := "https://ex.com/mcp";
     clientName := "Codex";
     callbackPort := 19876;
     output := auth_path |}.

End Scenario.

(** ** The command line ([parseArgs] and the entry point)

    [console.log] of progress is left out; what is kept of the output
    are the usage text and the lines written by [console.error]. *)

Module Cli.

Inductive Output : Type :=
| Usage                      (* console.log of the usage text *)
| ErrorLine (s : string).    (* console.error(s) *)

(** A function that may end the process: [process.exit(code)] does not
    return. *)
Inductive Ran (A : Type) : Type :=
| Returned (a : A)
| Exited (code : Z).
Arguments Returned {A} a.
Arguments Exited {A} code.

(** [usage()] *)
Definition usage {A} : list Output * Ran A := ([Usage], Exited 1).

(** [args[++i] || d] *)
Definition or_default (v : option string) (d : string) : string :=
  match v with
  | Some s => if String.eqb s "" then d else s
  | None => d
  end.

(** The [for] loop over [args] from index 2, on the arguments that are
    left; [parseInt] is the runtime's [parseInt(s, 10)], with [None] for
    [NaN]. *)
Fixpoint options (parseInt : string -> option Z) (rest : list string)
    (url clientName : string) (callbackPort : option Z) (output : string)
  : list Output * Ran (string * string * option Z * string) :=
  match rest with
  | [] => ([], Returned (url, clientName, callbackPort, output))
  | arg :: rest' =>
      if String.eqb arg "--url" then
        match rest' with
        | v :: rest'' =>
            options parseInt rest'' (or_default (Some v) "") clientName callbackPort output
        | [] => ([], Returned (or_default None "", clientName, callbackPort, output))
        end
      else if String.eqb arg "--client-name" then
        match rest' with
        | v :: rest'' =>
            options parseInt rest'' url (or_default (Some v) "Codex") callbackPort output
        | [] => ([], Returned (url, or_default None "Codex", callbackPort, output))
        end
      else if String.eqb arg "--callback-port" then
        match rest' with
        | v :: rest'' =>
            options parseInt rest'' url clientName
              (parseInt (or_default (Some v) "19876")) output
        | [] => ([], Returned (url, clientName,
                               parseInt (or_default None "19876"), output))
        end
      else if String.eqb arg "--output" then
        match rest' with
        | v :: rest'' =>
            options parseInt rest'' url clientName callbackPort (or_default (Some v) output)
        | [] => ([], Returned (url, clientName, callbackPort, or_default None output))
        end
      else if String.eqb arg "--help" then usage
      else ([ErrorLine ("Unknown option: " ++ arg); Usage], Exited 1)
  end.

(** [parseArgs]; [defaultPath] is what [getDefaultPath()] returns. *)
Definition parseArgs (parseInt : string -> option Z) (defaultPath : string)
    (args : list string) : list Output * Ran Config :=
  match args with
  | command :: name :: rest =>
      if negb (String.eqb command "auth") then usage
      else
        match options parseInt rest "" "Codex" (Some 19876) defaultPath with
        | (out, Exited code) => (out, Exited code)
        | (out, Returned (url, clientName, callbackPort, output)) =>
            if String.eqb url "" then
              ((out ++ [ErrorLine "Error: --url is required"; Usage])%list, Exited 1)
            else
              match callbackPort with
              | Some port =>
                  if (port <? 1) || (port >? 65535) then
                    ((out ++ [ErrorLine "Error: --callback-port must be a valid port number"])%list,
                     Exited 1)
                  else
                    (out, Returned {| serverName := name;
                                      url := url;
                                      clientName := clientName;
                                      callbackPort := port;
                                      output := output |})
              | None =>
                  ((out ++ [ErrorLine "Error: --callback-port must be a valid port number"])%list,
                   Exited 1)
              end
        end
  | _ => usage
  end.

(** What a run of the program leaves behind. *)
Record Process := {
  printed : list Output;
  effects : list Action;
  exit_code : option Z       (* None: the process is still waiting *)
}.

(** The program: the first lines of [main], [parseArgs], the flow, and
    the [catch] at the bottom of the file. A flow that returns lets the
    process end with status 0. *)
Definition program (parseInt : string -> option Z) (defaultPath : string)
    (w : World) (args : list string) : Process :=
  let help :=
    match args with
    | [] => true
    | first :: _ => String.eqb first "--help" || String.eqb first "-h"
    end in
  if help then {| printed := [Usage]; effects := []; exit_code := Some 1 |}
  else
    match parseArgs parseInt defaultPath args with
    | (out, Exited code) =>
        {| printed := out; effects := []; exit_code := Some code |}
    | (out, Returned config) =>
        match main w config with
        | (t, Ok _) => {| printed := out; effects := t; exit_code := Some 0 |}
        | (t, Throw err) =>
            {| printed := (out ++ [ErrorLine ""; ErrorLine ("Error: " ++ message err)])%list;
               effects := t; exit_code := Some 1 |}
        | (t, Pending) => {| printed := out; effects := t; exit_code := None |}
        end
    end.

(** A [parseInt] for runs: decimal digits only. *)
Fixpoint digits (s : string) (acc : Z) : option Z :=
  match s with
  | EmptyString => Some acc
  | String c rest =>
      let n := Z.of_N (N_of_ascii c) in
      if (48 <=? n) && (n <=? 57) then digits rest (10 * acc + (n - 48)) else None
  end.

Definition parse_digits (s : string) : option Z :=
  match s with
  | EmptyString => None
  | _ => digits s 0
  end.

End Cli.

(** ** Vocabulary for the listener *)

(** The rejection that follows a failed [listen], and any other
    [error] event of the server. *)
Definition bind_failure (port : Z) (code : option string) (msg : string) : Exn :=
  if bool_decide (code = Some "EADDRINUSE") then
    Error ("Port " ++ dec port
           ++ " is already in use. Try a different port with --callback-port")
  else Error ("Failed to start callback server: " ++ msg).

(** What an event delivers if the listener has not settled before it:
    the timer rejects, an error of the server rejects, a callback with
    an [error] parameter rejects, a callback with [code] and [state]
    resolves, any other request delivers nothing. *)
Definition verdict (w : World) (port : Z) (ev : Event) : option Server.Settlement :=
  match ev with
  | TimerFired => Some (Server.Rejected Server.timed_out)
  | ServerError code msg => Some (Server.Rejected (bind_failure port code msg))
  | Request req =>
      match req_url req with
      | Some u =>
          if String.prefix "/callback" u then
            if truthy_string (searchParams_get w u "error") then
              Some (Server.Rejected
                      (Server.authorization_error
                         (default "" (searchParams_get w u "error"))
                         (searchParams_get w u "error_description")))
            else if truthy_string (searchParams_get w u "code")
                    && truthy_string (searchParams_get w u "state") then
              Some (Server.Resolved
                      {| Server.code := default "" (searchParams_get w u "code");
                         Server.state := default "" (searchParams_get w u "state") |})
            else None
          else None
      | None => None
      end
  end.

Definition is_request (ev : Event) : bool :=
  match ev with
  | Request _ => true
  | TimerFired | ServerError _ _ => false
  end.

Definition is_server_error (ev : Event) : bool :=
  match ev with
  | ServerError _ _ => true
  | Request _ | TimerFired => false
  end.

(** ** Vocabulary for the flow *)

(** The redirect URI of a configuration. *)
Definition redirectUri (config : Config) : string :=
  "http://localhost:" ++ dec (callbackPort config) ++ "/callback".

(** The trace without the directory creations. *)
Fixpoint without_mkdir (t : list Action) : list Action :=
  match t with
  | [] => []
  | MkDir _ :: rest => without_mkdir rest
  | a :: rest => a :: without_mkdir rest
  end.

(** The request sent by [registerClient]. *)
Definition registration_init (redirect name : string) : RequestInit :=
  {| method := "POST";
     headers := [("Content-Type", "application/json")];
     body := JsonBody (Oauth.registration_body redirect name) |}.

(** The request sent by [exchangeCodeForTokens]. *)
Definition token_init (code verifier : string) (client : JSON) (redirect : string)
  : RequestInit :=
  {| method := "POST";
     headers := [("Content-Type", "application/x-www-form-urlencoded")];
     body := FormBody [ ("grant_type", "authorization_code");
                        ("code", code);
                        ("code_verifier", verifier);
                        ("client_id", ToString client);
                        ("redirect_uri", redirect) ] |}.

(** The parameters [buildAuthorizationUrl] sets on the authorization
    endpoint. *)
Definition authorization_params (client : JSON) (redirect challenge state : string)
  : list (string * string) :=
  [ ("response_type", "code");
    ("client_id", ToString client);
    ("redirect_uri", redirect);
    ("code_challenge", challenge);
    ("code_challenge_method", "S256");
    ("state", state) ].

(** An action on the file system of the flow is a creation of the
    directory of the output path or a write of the output path with
    mode [0o600]. *)
Definition private_file_action (w : World) (config : Config) (a : Action) : bool :=
  match a with
  | MkDir dir => String.eqb dir (path_dirname w (output config))
  | WriteFile path _ mode => String.eqb path (output config) && (mode =? 384)
  | _ => true
  end.

(** ** Further worlds *)

Module Cases.

(** The server advertises an empty registration endpoint. *)
Definition metadata_with_empty_registration : JSON :=
  JObj [ ("authorization_endpoint", JStr "https://ex.com/auth");
         ("token_endpoint", JStr "https://ex.com/token");
         ("registration_endpoint", JStr "") ].

Definition empty_registration : World :=
  Scenario.world (Scenario.respond metadata_with_empty_registration)
    Scenario.token Bound [Scenario.callback "authcode1" Scenario.uuid].

(** Scenario C: nothing reaches the listener before the timer. *)
Definition C : World :=
  Scenario.world (Scenario.respond Scenario.metadata) Scenario.token Bound
    [Scenario.favicon; TimerFired].

(** The server fails to accept a connection while it is listening. *)
Definition accept_failure : Event := ServerError (Some "EMFILE") "accept EMFILE".






(** The metadata give an object for the authorization endpoint, and no
    registration endpoint. *)
Definition metadata_with_object_endpoint : JSON :=
  JObj [ ("authorization_endpoint", JObj [("toString", JNum (Number.of_Z 1))]);
         ("token_endpoint", JStr "https://ex.com/token") ].

Definition object_endpoint : World :=
  Scenario.world (Scenario.respond metadata_with_object_endpoint)
    Scenario.token Bound [Scenario.callback "authcode1" Scenario.uuid].

(** The token response gives an object for the lifetime. *)
Definition token_with_object_lifetime : JSON :=
  JObj [ ("access_token", JStr "at-1");
         ("expires_in", JObj [("toString", JNum (Number.of_Z 1))]) ].

Definition object_lifetime : World :=
  Scenario.world (Scenario.respond Scenario.metadata)
    token_with_object_lifetime Bound
    [Scenario.callback "authcode1" Scenario.uuid].

(** A configuration whose URL does not parse. *)
Definition malformed : Config :=
  {| serverName := "figma";
     url := "not a url";
     clientName := "Codex";
     callbackPort := 19876;
     output := Scenario.auth_path |}.

End Cases.

(** ** Vocabulary for the encodings *)

(** The characters of the base64url alphabet. *)
Definition base64url_char (c : ascii) : bool :=
  let n := N_of_ascii c in
  ((97 <=? n) && (n <=? 122) || (65 <=? n) && (n <=? 90)
   || (48 <=? n) && (n <=? 57) || (n =? 45) || (n =? 95))%N.

Module Cases2.

(** A configuration whose output path holds no readable auth file. *)
Definition fresh_output : Config :=
  {| serverName := "figma";
     url := "https://ex.com/mcp";
     clientName := "Codex";
     callbackPort := 19876;
     output := "/tmp/new/mcp-auth.json" |}.

End Cases2.
(* ================================================================== *)
(** * Part II: properties                                               *)
(* ================================================================== *)

(** ** Numbers *)

(** [0.1 + 0.2], [1e-7], [0.000001], [123456789012345680000], the least
    and the greatest double, [1e21] and [-0.5], printed. *)
Lemma number_toString_examples :
  map Number.toString
    [ S754_finite false 5404319552844596 (-54);
      S754_finite false 7555786372591432 (-76);
      S754_finite false 4722366482869645 (-72);
      S754_finite false 7535204407491802 14;
      S754_finite false 1 (-1074);
      S754_finite false 9007199254740991 971;
      Number.of_Z (10 ^ 21);
      S754_finite true 4503599627370496 (-53) ]
  = [ "0.30000000000000004"; "1e-7"; "0.000001"; "123456789012345680000";
      "5e-324"; "1.7976931348623157e+308"; "1e+21"; "-0.5" ].
Proof. vm_compute. reflexivity. Qed.

Lemma number_add_examples :
  Number.add (Number.of_Z 1762000000) (Number.of_Z 3600) = Number.of_Z 1762003600
  /\ Number.add (S754_finite false 7205759403792794 (-56))
                (S754_finite false 7205759403792794 (-55))
     = S754_finite false 5404319552844596 (-54)
  /\ Number.of_Z (2 ^ 53 + 1) = Number.of_Z (2 ^ 53).
Proof. vm_compute. auto. Qed.

(** ** Encodings *)

Lemma sha256_abc :
  Buffer.base64url (SHA256.digest (Buffer.from "abc"))
  = "ungWv48Bz-pBQUDeXa4iI7ADYaOWF3qctBD_YfIAFa0".
Proof. vm_compute. reflexivity. Qed.

Lemma sha256_constants :
  length SHA256.K = 64%nat
  /\ nth 0 SHA256.K 0 = 0x428a2f98 /\ nth 63 SHA256.K 0 = 0xc67178f2
  /\ nth 0 SHA256.H0 0 = 0x6a09e667 /\ nth 7 SHA256.H0 0 = 0x5be0cd19.
Proof. vm_compute. auto. Qed.

(** The example of RFC 7636, Appendix B. *)
Lemma rfc7636_appendix_B :
  Buffer.base64url
    (SHA256.digest (Buffer.from "dBjftJeZ4CVP-mB92K27uhbUJU1p1r_wW1gFWFOEjXk"))
  = "E9Melhoa2OwvFrEMTJguCHaoeK1t8URWbuGJSstw-cM".
Proof. vm_compute. reflexivity. Qed.

Lemma list_ind3 {A} (P : list A -> Prop) :
  P [] -> (forall a, P [a]) -> (forall a b, P [a; b]) ->
  (forall a b c rest, P rest -> P (a :: b :: c :: rest)) ->
  forall l, P l.
Proof.
  intros H0 H1 H2 H3.
  fix IH 1.
  intros [|a [|b [|c rest]]];
    [exact H0 | apply H1 | apply H2 | apply H3, IH].
Qed.

Lemma below_64 (P : nat -> bool) :
  forallb P (seq 0 64) = true -> forall i : N, (i < 64)%N -> P (N.to_nat i) = true.
Proof.
  intros H i Hi. rewrite forallb_forall in H. apply H.
  apply in_seq. lia.
Qed.

Lemma sextet_lt q k : (Buffer.sextet q k < 64)%N.
Proof.
  unfold Buffer.sextet. change 63%N with (N.ones 6).
  rewrite N.land_ones. apply N.mod_lt. discriminate.
Qed.

Lemma url_digit_unreserved i :
  (i < 64)%N -> Oauth.unreserved (Buffer.digit Buffer.url_alphabet i) = true.
Proof.
  apply (below_64 (fun n => Oauth.unreserved (nth n Buffer.url_alphabet "A"%char))).
  vm_compute. reflexivity.
Qed.

Lemma std_digit_to_url i :
  (i < 64)%N ->
  Spec.url_char (Buffer.digit Buffer.std_alphabet i) = Buffer.digit Buffer.url_alphabet i
  /\ Ascii.eqb (Buffer.digit Buffer.std_alphabet i) "="%char = false.
Proof.
  intros Hi. split.
  - apply (below_64 (fun n =>
      Ascii.eqb (Spec.url_char (nth n Buffer.std_alphabet "A"%char))
                (nth n Buffer.url_alphabet "A"%char))) in Hi.
    + apply Ascii.eqb_eq in Hi. exact Hi.
    + vm_compute. reflexivity.
  - apply (below_64 (fun n =>
      negb (Ascii.eqb (nth n Buffer.std_alphabet "A"%char) "="%char))) in Hi.
    + apply negb_true_iff in Hi. exact Hi.
    + vm_compute. reflexivity.
Qed.

Lemma base64url_unreserved bs :
  all_chars Oauth.unreserved (Buffer.base64url bs) = true.
Proof.
  induction bs as [|a|a b|a b c rest IH] using list_ind3; cbn [Buffer.base64url all_chars];
    rewrite ?url_digit_unreserved by apply sextet_lt; auto.
Qed.

Lemma base64url_length bs :
  String.length (Buffer.base64url bs) = ((4 * length bs + 2) / 3)%nat.
Proof.
  induction bs as [|a|a b|a b c rest IH] using list_ind3; try reflexivity.
  cbn [Buffer.base64url String.length length]. rewrite IH.
  replace (4 * S (S (S (length rest))) + 2)%nat
    with ((4 * length rest + 2) + 4 * 3)%nat by lia.
  rewrite Nat.div_add by discriminate. lia.
Qed.

(** The encoding written directly agrees with the procedure of the RFC. *)
Lemma base64url_is_rfc bs : Buffer.base64url bs = Spec.base64url_nopad bs.
Proof.
  unfold Spec.base64url_nopad.
  induction bs as [|a|a b|a b c rest IH] using list_ind3;
    cbn [Buffer.base64url Buffer.base64 Spec.strip_padding Spec.to_url];
    repeat match goal with
    | |- context [Ascii.eqb (Buffer.digit Buffer.std_alphabet (Buffer.sextet ?q ?k)) _] =>
        rewrite (proj2 (std_digit_to_url _ (sextet_lt q k)));
        cbn [Spec.strip_padding Spec.to_url]
    end;
    rewrite ?(fun q k => proj1 (std_digit_to_url _ (sextet_lt q k)));
    try rewrite <- IH; reflexivity.
Qed.

Lemma strip_disallowed_id s :
  all_chars Oauth.unreserved s = true -> Oauth.strip_disallowed s = s.
Proof.
  induction s as [|c s IH]; cbn; [reflexivity|].
  intros [Hc Hs]%andb_true_iff. rewrite Hc, IH; auto.
Qed.

Lemma strip_disallowed_unreserved s :
  all_chars Oauth.unreserved (Oauth.strip_disallowed s) = true.
Proof.
  induction s as [|c s IH]; cbn; [reflexivity|].
  destruct (Oauth.unreserved c) eqn:Hc; cbn; rewrite ?Hc; auto.
Qed.

Lemma unreserved_no_padding s :
  all_chars Oauth.unreserved s = true -> no_padding s = true.
Proof.
  unfold no_padding. induction s as [|c s IH]; cbn; [reflexivity|].
  intros [Hc Hs]%andb_true_iff. rewrite IH by assumption.
  rewrite andb_true_r. apply negb_true_iff.
  destruct (Ascii.eqb c "=") eqn:E; [|reflexivity].
  apply Ascii.eqb_eq in E. subst c. discriminate Hc.
Qed.

Lemma verifier_is_encoding bs :
  Oauth.codeVerifier (Oauth.generatePKCE bs) = Buffer.base64url bs.
Proof. cbn. apply strip_disallowed_id, base64url_unreserved. Qed.

(** ** PKCE generation *)

(** C4. For every pair returned by [generatePKCE], whatever the random
    bytes, [codeChallenge] is the unpadded base64url encoding of the
    SHA-256 digest of [codeVerifier] as the specification defines it (a
    function of the verifier alone), and neither string contains the
    padding character [=]. *)
Theorem generatePKCE_challenge (verifierBytes : list byte) :
  let pkce := Oauth.generatePKCE verifierBytes in
  Oauth.codeChallenge pkce = Spec.code_challenge (Oauth.codeVerifier pkce)
  /\ no_padding (Oauth.codeVerifier pkce) = true
  /\ no_padding (Oauth.codeChallenge pkce) = true.
Proof.
  cbn zeta. split; [|split].
  - unfold Spec.code_challenge. rewrite <- base64url_is_rfc. reflexivity.
  - apply unreserved_no_padding, strip_disallowed_unreserved.
  - apply unreserved_no_padding. cbn [Oauth.generatePKCE Oauth.codeChallenge].
    apply base64url_unreserved.
Qed.

(** C5. For all values of the 32 random bytes, every character of the
    verifier is one of [A-Za-z0-9-._~] and the verifier has between 43
    and 128 characters. *)
Theorem generatePKCE_verifier (verifierBytes : list byte) :
  length verifierBytes = 32%nat ->
  let pkce := Oauth.generatePKCE verifierBytes in
  all_chars Oauth.unreserved (Oauth.codeVerifier pkce) = true
  /\ (43 <= String.length (Oauth.codeVerifier pkce) <= 128)%nat.
Proof.
  intros Hlen pkce. split.
  - apply strip_disallowed_unreserved.
  - subst pkce. rewrite verifier_is_encoding, base64url_length, Hlen.
    change ((4 * 32 + 2) / 3)%nat with 43%nat. lia.
Qed.

Lemma generatePKCE_verifier_witness :
  all_chars Oauth.unreserved
    (Oauth.codeVerifier (Oauth.generatePKCE (repeat "255"%byte 32))) = true
  /\ (43 <= String.length
             (Oauth.codeVerifier (Oauth.generatePKCE (repeat "255"%byte 32))) <= 128)%nat.
Proof. apply (generatePKCE_verifier (repeat "255"%byte 32)). reflexivity. Defined.

Lemma generatePKCE_all_ones :
  Oauth.generatePKCE (repeat "255"%byte 32)
  = {| Oauth.codeVerifier := "__________________________________________8";
       Oauth.codeChallenge :=
         Oauth.codeChallenge (Oauth.generatePKCE (repeat "255"%byte 32)) |}.
Proof. vm_compute. reflexivity. Qed.

(** ** The callback listener *)

Module ServerFacts.
Import Server.

Lemma inv_init bound : inv (init bound).
Proof. split; cbn; intros; (reflexivity || discriminate). Qed.

Lemma inv_respond status page st : inv st -> inv (respond status page st).
Proof. intros [H1 H2]. split; cbn; assumption. Qed.

Lemma inv_settle s st : inv st -> inv (settle s (clearTimeout st)).
Proof.
  intros [H1 H2]. unfold settle. cbn.
  destruct (settled st) eqn:Hs; cbn.
  - split; cbn; rewrite ?Hs; auto.
  - split; cbn; auto. rewrite length_app, H1. reflexivity.
Qed.

Lemma inv_settle_cleanup s st : inv st -> inv (settle s (cleanup st)).
Proof.
  intros [H1 H2]. unfold settle. cbn.
  destruct (settled st) eqn:Hs; cbn.
  - split; cbn; rewrite ?Hs; auto.
  - split; cbn; auto. rewrite length_app, H1. reflexivity.
Qed.

Lemma inv_on_error port code msg st : inv st -> inv (on_error port code msg st).
Proof. apply inv_settle. Qed.

Lemma inv_start port b : inv (start port b).
Proof. destruct b; [apply inv_init | apply inv_on_error, inv_init]. Qed.

Lemma inv_step w port st ev : inv st -> inv (step w port st ev).
Proof.
  intros Hst. destruct ev as [req| |code msg]; cbn.
  - unfold on_request.
    destruct (req_url req) as [u|]; [|by apply inv_respond].
    destruct (negb (String.prefix "/callback" u)); [by apply inv_respond|].
    destruct (truthy_string (searchParams_get w u "error")).
    { by apply inv_settle_cleanup, inv_respond. }
    destruct (searchParams_get w u "code") as [c|]; [|by apply inv_respond].
    destruct (searchParams_get w u "state") as [s|]; [|by apply inv_respond].
    destruct (negb (truthy_string (Some c)) || negb (truthy_string (Some s)));
      [by apply inv_respond | by apply inv_settle_cleanup, inv_respond].
  - unfold on_timeout. destruct (timeout st); [by apply inv_settle_cleanup | done].
  - by apply inv_on_error.
Qed.

Lemma inv_fold w port evs st : inv st -> inv (fold_left (step w port) evs st).
Proof. revert st. induction evs as [|ev evs IH]; cbn; auto using inv_step. Qed.

Lemma inv_run w port b evs : inv (run w port b evs).
Proof. apply inv_fold, inv_start. Qed.

(** Handlers only ever add to the calls already made. *)
Lemma settle_prefix s st : delivered st `prefix_of` delivered (settle s st).
Proof.
  unfold settle. destruct (settled st); cbn; [done|].
  by apply prefix_app_r.
Qed.

Lemma step_prefix w port st ev : delivered st `prefix_of` delivered (step w port st ev).
Proof.
  destruct ev as [req| |code msg]; cbn.
  - unfold on_request.
    repeat match goal with
    | |- context [match ?x with _ => _ end] => destruct x
    end; try done;
    match goal with
    | |- _ `prefix_of` delivered (settle ?s ?st') =>
        exact (settle_prefix s st')
    end.
  - unfold on_timeout. destruct (timeout st); [|done].
    exact (settle_prefix _ (cleanup st)).
  - exact (settle_prefix _ (clearTimeout st)).
Qed.

Lemma fold_prefix w port evs st :
  delivered st `prefix_of` delivered (fold_left (step w port) evs st).
Proof.
  revert st. induction evs as [|ev evs IH]; intros st; cbn; [done|].
  etrans; [apply step_prefix | apply IH].
Qed.

(** The timer is spent once its event has been handled, and nothing
    arms it again. *)
Lemma timer_spent w port st : timeout (step w port st TimerFired) = false.
Proof.
  cbn. unfold on_timeout. destruct (timeout st) eqn:Ht; [|exact Ht].
  unfold settle. destruct (negb (settled (cleanup st))); reflexivity.
Qed.

Lemma timer_stays_spent w port st ev :
  timeout st = false -> timeout (step w port st ev) = false.
Proof.
  intros Hst. destruct ev as [req| |code msg]; cbn.
  - unfold on_request.
    repeat match goal with
    | |- context [match ?x with _ => _ end] => destruct x
    end; try exact Hst;
    unfold settle; destruct (negb _); reflexivity.
  - unfold on_timeout. rewrite Hst. exact Hst.
  - unfold on_error, settle. destruct (negb _); reflexivity.
Qed.

Lemma timer_spent_fold w port evs st :
  timeout st = false -> timeout (fold_left (step w port) evs st) = false.
Proof.
  revert st. induction evs as [|ev evs IH]; intros st Hst; cbn; [exact Hst|].
  apply IH, timer_stays_spent, Hst.
Qed.

(** No handler makes the server listen. *)
Lemma step_not_listening w port st ev :
  listening st = false -> listening (step w port st ev) = false.
Proof.
  intros Hst. destruct ev as [req| |code msg]; cbn.
  - unfold on_request.
    repeat match goal with
    | |- context [match ?x with _ => _ end] => destruct x
    end; try exact Hst;
    unfold settle; destruct (negb _); reflexivity.
  - unfold on_timeout. destruct (timeout st); [|exact Hst].
    unfold settle. destruct (negb _); reflexivity.
  - unfold on_error, settle. destruct (negb _); exact Hst.
Qed.

Lemma fold_not_listening w port evs st :
  listening st = false -> listening (fold_left (step w port) evs st) = false.
Proof.
  revert st. induction evs as [|ev evs IH]; intros st Hst; cbn; [exact Hst|].
  apply IH, step_not_listening, Hst.
Qed.

(** The handlers of requests and of the timer close the server whenever
    they settle. *)
Lemma step_closed w port st ev :
  is_server_error ev = false ->
  settled st && listening st = false ->
  settled (step w port st ev) && listening (step w port st ev) = false.
Proof.
  intros Hev Hst. destruct ev as [req| |code msg]; [| |discriminate Hev]; cbn.
  - unfold on_request.
    repeat match goal with
    | |- context [match ?x with _ => _ end] => destruct x
    end; try exact Hst;
    unfold settle; destruct (negb _); cbn; rewrite ?andb_false_r; reflexivity.
  - unfold on_timeout. destruct (timeout st); [|exact Hst].
    unfold settle. destruct (negb _); cbn; rewrite ?andb_false_r; reflexivity.
Qed.

Lemma fold_closed w port evs st :
  forallb (fun ev => negb (is_server_error ev)) evs = true ->
  settled st && listening st = false ->
  settled (fold_left (step w port) evs st)
  && listening (fold_left (step w port) evs st) = false.
Proof.
  revert st. induction evs as [|ev evs IH]; intros st Hevs Hst; cbn; [exact Hst|].
  cbn in Hevs. apply andb_true_iff in Hevs as [Hev Hevs].
  apply IH; [exact Hevs|]. apply step_closed; [|exact Hst].
  by apply negb_true_iff.
Qed.

Lemma start_closed port b : settled (start port b) && listening (start port b) = false.
Proof. destruct b; reflexivity. Qed.

End ServerFacts.

(** C2. The claim fails at an [error] event on a server that is
    listening. The handler of that event rejects, so that the one
    outcome is delivered, but unlike the handlers of requests and of the
    timer it does not close the server: after a failure to accept a
    connection the listener has settled and still holds the port, and
    the timer, which the handler cancelled, never closes it either. *)
Theorem startCallbackServer_error_keeps_port :
  let st := Server.run Scenario.A 19876 Bound [Cases.accept_failure] in
  let st' := Server.run Scenario.A 19876 Bound [Cases.accept_failure; TimerFired] in
  Server.delivered st
  = [Server.Rejected (Error "Failed to start callback server: accept EMFILE")]
  /\ Server.settled st = true
  /\ Server.listening st = true
  /\ Server.delivered st' = Server.delivered st
  /\ Server.listening st' = true.
Proof. vm_compute. auto. Qed.

(** ** Reasoning about computations *)

Lemma trace_bind {A B} (m : M A) (k : A -> M B) :
  trace (bind m k)
  = (trace m ++ match result m with Ok a => trace (k a) | _ => [] end)%list.
Proof.
  destruct m as [t [a|e|]]; cbn; rewrite ?app_nil_r; try reflexivity.
  destruct (k a); reflexivity.
Qed.

Lemma result_bind {A B} (m : M A) (k : A -> M B) :
  result (bind m k)
  = match result m with
    | Ok a => result (k a)
    | Throw e => Throw e
    | Pending => Pending
    end.
Proof.
  destruct m as [t [a|e|]]; cbn; try reflexivity.
  destruct (k a); reflexivity.
Qed.

Lemma trace_try_catch {A} (m : M A) (h : Exn -> M A) :
  trace (try_catch m h)
  = (trace m ++ match result m with Throw e => trace (h e) | _ => [] end)%list.
Proof.
  destruct m as [t [a|e|]]; cbn; rewrite ?app_nil_r; try reflexivity.
  destruct (h e); reflexivity.
Qed.

Lemma result_try_catch {A} (m : M A) (h : Exn -> M A) :
  result (try_catch m h)
  = match result m with
    | Throw e => result (h e)
    | r => r
    end.
Proof.
  destruct m as [t [a|e|]]; cbn; try reflexivity.
  destruct (h e); reflexivity.
Qed.

Ltac simp_res := cbn [result trace fst snd ret throw act].
Tactic Notation "simp_res" "in" hyp(H) :=
  cbn [result trace fst snd ret throw act] in H.

(** ** Conversions *)

Lemma trace_to_string v : trace (to_string v) = [].
Proof. unfold to_string. by destruct (printable v). Qed.

Lemma result_to_string v :
  result (to_string v)
  = if printable v then Ok (ToString v) else Throw conversion_failure.
Proof. unfold to_string. by destruct (printable v). Qed.

(** A conversion either hands the string on or ends the computation. *)
Lemma bind_to_string {B} v (k : string -> M B) :
  bind (to_string v) k
  = if printable v then k (ToString v) else throw conversion_failure.
Proof.
  unfold to_string. destruct (printable v); [|reflexivity].
  unfold bind, ret. by destruct (k (ToString v)).
Qed.

Lemma trace_js_add n v : trace (js_add n v) = [].
Proof.
  destruct v; cbn [js_add]; try reflexivity;
    rewrite trace_bind, trace_to_string, result_to_string;
    by destruct (printable _).
Qed.

Lemma trace_expiry now e : trace (expiry now e) = [].
Proof.
  destruct e as [e|]; cbn [expiry]; [|reflexivity].
  destruct (truthy (Some e)); [|reflexivity].
  rewrite trace_bind, trace_js_add. by destruct (result (js_add _ e)).
Qed.

(** ** Reading the auth file *)

(** C10. [readAuthFile] never throws: for every path it returns a
    value, which is the parsed content when the file can be read and
    parsed, and the empty mapping [{}] after any failure to read the
    file or to parse its content. *)
Theorem readAuthFile_total (w : World) (filePath : string) :
  exists data : JSON,
    Storage.readAuthFile w filePath = ([ReadFile filePath], Ok data)
    /\ data = match readFileSync w filePath with
              | inr _ => JObj []
              | inl content =>
                  match JSON_parse w content with
                  | inr _ => JObj []
                  | inl parsed => parsed
                  end
              end.
Proof.
  unfold Storage.readAuthFile.
  destruct (readFileSync w filePath) as [content|e]; cbn.
  - destruct (JSON_parse w content) as [parsed|e]; cbn; eauto.
  - eauto.
Qed.

(** ** Endpoint discovery *)

Lemma get_prop_result v k :
  get_prop v k = ([], Ok (field v k))
  \/ (v = JNull /\ exists m, get_prop v k = ([], Throw (TypeError m))).
Proof. destruct v; cbn; eauto. Qed.

Lemma trace_fetchJSON w url options :
  trace (Oauth.fetchJSON w url options) = [FetchRequest url options].
Proof.
  unfold Oauth.fetchJSON. rewrite trace_bind. cbn.
  destruct (fetch w url options) as [e|res]; [reflexivity|].
  destruct (negb (ok res)); [reflexivity|].
  destruct (json res); reflexivity.
Qed.

Lemma result_fetchJSON w url options :
  result (Oauth.fetchJSON w url options)
  = match fetch w url options with
    | inl e => Throw e
    | inr res =>
        if negb (ok res) then Throw (Oauth.http_failure url res)
        else match json res with inl v => Ok v | inr e => Throw e end
    end.
Proof.
  unfold Oauth.fetchJSON. rewrite result_bind. cbn.
  destruct (fetch w url options) as [e|res]; [reflexivity|].
  destruct (negb (ok res)); [reflexivity|].
  destruct (json res); reflexivity.
Qed.





Lemma discovery_scenario_A :
  Oauth.discoverOAuthEndpoints Scenario.A "https://ex.com/mcp"
  = ([FetchRequest Scenario.well_known None],
     Ok {| Oauth.authorizationEndpoint := JStr "https://ex.com/auth";
           Oauth.tokenEndpoint := JStr "https://ex.com/token";
           Oauth.registrationEndpoint := Some (JStr "https://ex.com/register") |}).
Proof. reflexivity. Qed.

(** ** Token exchange *)

(** C8, as amended. Whenever [exchangeCodeForTokens] returns, the
    result carries [access_token], [refresh_token], [expires_in] and
    [scope] exactly as the response has them; [token_type] is the one of
    the response when that is truthy, and ["Bearer"] when the response
    has no [token_type] or a falsy one, such as the empty string. *)
Theorem exchangeCodeForTokens_passthrough
    (w : World) (tokenEndpoint : JSON) (code codeVerifier : string)
    (clientId : JSON) (redirectUri : string) (tr : Oauth.TokenResponse) :
  result (Oauth.exchangeCodeForTokens w tokenEndpoint code codeVerifier
            clientId redirectUri) = Ok tr ->
  exists options res response,
    fetch w (ToString tokenEndpoint) options = inr res
    /\ json res = inl response
    /\ Some (Oauth.access_token tr) = field response "access_token"
    /\ Oauth.refresh_token tr = field response "refresh_token"
    /\ Oauth.expires_in tr = field response "expires_in"
    /\ Oauth.scope tr = field response "scope"
    /\ (truthy (field response "token_type") = true ->
        Some (Oauth.token_type tr) = field response "token_type")
    /\ (truthy (field response "token_type") = false ->
        Oauth.token_type tr = JStr "Bearer").
Proof.
  unfold Oauth.exchangeCodeForTokens.
  rewrite bind_to_string. destruct (printable clientId); [|discriminate].
  rewrite bind_to_string. destruct (printable tokenEndpoint); [|discriminate].
  rewrite result_bind, result_fetchJSON.
  match goal with
  | |- context [fetch w _ ?o] => set (options := o)
  end.
  destruct (fetch w (ToString tokenEndpoint) options) as [e|res] eqn:Hf;
    [discriminate|].
  destruct (negb (ok res)); [discriminate|].
  destruct (json res) as [response|e] eqn:Hj; [|discriminate].
  rewrite result_bind.
  destruct (get_prop_result response "access_token") as [E|[-> [m E]]];
    rewrite E; simp_res; [|discriminate].
  destruct (field response "access_token") as [tok|] eqn:Ftok; [|discriminate].
  destruct (negb (truthy (Some tok))); [discriminate|].
  assert (Hobj : response <> JNull) by (intros ->; discriminate Ftok).
  repeat (rewrite result_bind;
          match goal with
          | |- context [get_prop response ?k] =>
              destruct (get_prop_result response k) as [E'|[? _]];
              [rewrite E'; clear E'; simp_res | contradiction]
          end).
  intros [= <-]. exists options, res, response. cbn.
  repeat split; auto.
  - destruct (field response "token_type") as [v|]; [|discriminate].
    cbn [Oauth.or_else]. intros ->. reflexivity.
  - destruct (field response "token_type") as [v|]; [|reflexivity].
    cbn [Oauth.or_else]. intros ->. reflexivity.
Qed.

Lemma exchangeCodeForTokens_passthrough_witness :
  exists options res response,
    fetch Scenario.A "https://ex.com/token" options = inr res
    /\ json res = inl response
    /\ Some (JStr "tok1") = field response "access_token"
    /\ None = field response "refresh_token"
    /\ Some (JNum (Number.of_Z 3600)) = field response "expires_in"
    /\ None = field response "scope"
    /\ (truthy (field response "token_type") = true ->
        Some (JStr "Bearer") = field response "token_type")
    /\ (truthy (field response "token_type") = false ->
        JStr "Bearer" = JStr "Bearer").
Proof.
  exact (exchangeCodeForTokens_passthrough Scenario.A (JStr "https://ex.com/token")
           "authcode1" "verifier" (JStr "cid123") "http://localhost:19876/callback"
           {| Oauth.access_token := JStr "tok1"; Oauth.refresh_token := None;
              Oauth.expires_in := Some (JNum (Number.of_Z 3600)); Oauth.scope := None;
              Oauth.token_type := JStr "Bearer" |} eq_refl).
Defined.

(** C8 as stated fails: a response that does carry [token_type], with
    the empty string as its value, has it replaced by ["Bearer"]. *)
Lemma exchangeCodeForTokens_empty_token_type :
  let response := Scenario.token_with_empty_type in
  let r := result (Oauth.exchangeCodeForTokens Scenario.empty_token_type
                     (JStr "https://ex.com/token") "authcode1" "verifier"
                     (JStr "cid123") "http://localhost:19876/callback") in
  field response "token_type" = Some (JStr "")
  /\ r = Ok {| Oauth.access_token := JStr "tok1";
               Oauth.refresh_token := Some (JStr "ref1");
               Oauth.expires_in := None;
               Oauth.scope := None;
               Oauth.token_type := JStr "Bearer" |}
  /\ ~ (forall tr, r = Ok tr ->
          field response "token_type" <> None ->
          Some (Oauth.token_type tr) = field response "token_type").
Proof.
  cbn zeta. split; [reflexivity|]. split; [reflexivity|].
  intros H. specialize (H _ eq_refl). cbn in H.
  assert (Hne : Some (JStr "") <> (None : JSValue)) by discriminate.
  specialize (H Hne). discriminate H.
Qed.

(** ** What each step does and leaves in the trace *)

Lemma readAuthFile_run w filePath :
  exists data : JSON,
    Storage.readAuthFile w filePath = ([ReadFile filePath], Ok data).
Proof.
  unfold Storage.readAuthFile.
  destruct (readFileSync w filePath) as [content|e]; cbn; eauto.
  destruct (JSON_parse w content) as [parsed|e]; cbn; eauto.
Qed.

Lemma wellKnownUrl_run w serverUrl :
  trace (Oauth.wellKnownUrl w serverUrl) = []
  /\ forall wk, result (Oauth.wellKnownUrl w serverUrl) = Ok wk ->
                Oauth.wellKnownUrl w serverUrl = ret wk.
Proof.
  unfold Oauth.wellKnownUrl.
  destruct (URL_origin w serverUrl) as [origin|]; cbn.
  - destruct (URL_resolve w Oauth.well_known_path origin); cbn; split; auto.
    + intros wk [= <-]. reflexivity.
    + discriminate.
  - split; auto. discriminate.
Qed.

Lemma trace_get_prop v k : trace (get_prop v k) = [].
Proof. destruct v; reflexivity. Qed.

Lemma trace_bind_pure {A B} (m : M A) (k : A -> M B) :
  (forall a, trace (k a) = []) -> trace (bind m k) = trace m.
Proof.
  intros Hk. rewrite trace_bind.
  destruct (result m); rewrite ?Hk; apply app_nil_r.
Qed.

Lemma trace_try_catch_pure {A} (m : M A) (h : Exn -> M A) :
  (forall e, trace (h e) = []) -> trace (try_catch m h) = trace m.
Proof.
  intros Hh. rewrite trace_try_catch.
  destruct (result m); rewrite ?Hh; apply app_nil_r.
Qed.

(** Steps that only read properties and build values leave no trace. *)
Ltac pure_trace :=
  repeat first
    [ reflexivity
    | apply trace_get_prop
    | rewrite trace_bind_pure; [|intros]
    | match goal with
      | |- context [match ?x with _ => _ end] => destruct x
      end ].

(** Discovery sends at most one request, the one without a body. *)
Lemma trace_discover w serverUrl :
  trace (Oauth.discoverOAuthEndpoints w serverUrl)
  = match result (Oauth.wellKnownUrl w serverUrl) with
    | Ok wk => [FetchRequest wk None]
    | _ => []
    end.
Proof.
  unfold Oauth.discoverOAuthEndpoints.
  rewrite trace_bind.
  destruct (wellKnownUrl_run w serverUrl) as [-> _].
  destruct (result (Oauth.wellKnownUrl w serverUrl)) as [wk|e|]; auto.
  cbn [app].
  rewrite trace_try_catch_pure by reflexivity.
  rewrite trace_bind_pure; [apply trace_fetchJSON|].
  intros metadata. pure_trace.
Qed.

(** What a successful discovery has read. *)
Lemma discover_ok w serverUrl endpoints :
  result (Oauth.discoverOAuthEndpoints w serverUrl) = Ok endpoints ->
  exists wk res metadata,
    Oauth.wellKnownUrl w serverUrl = ret wk
    /\ fetch w wk None = inr res /\ ok res = true /\ json res = inl metadata
    /\ field metadata "authorization_endpoint" = Some (Oauth.authorizationEndpoint endpoints)
    /\ field metadata "token_endpoint" = Some (Oauth.tokenEndpoint endpoints)
    /\ Oauth.registrationEndpoint endpoints = field metadata "registration_endpoint"
    /\ trace (Oauth.discoverOAuthEndpoints w serverUrl) = [FetchRequest wk None].
Proof.
  intros Hok. rewrite trace_discover.
  revert Hok. unfold Oauth.discoverOAuthEndpoints.
  rewrite result_bind.
  destruct (wellKnownUrl_run w serverUrl) as [_ Hwk].
  destruct (result (Oauth.wellKnownUrl w serverUrl)) as [wk|e|];
    try discriminate.
  specialize (Hwk wk eq_refl).
  rewrite result_try_catch, result_bind, result_fetchJSON.
  intros Hok.
  destruct (fetch w wk None) as [e|res] eqn:Hf; [discriminate Hok|].
  destruct (ok res) eqn:Hres; [|discriminate Hok]. cbn [negb] in Hok.
  destruct (json res) as [metadata|e] eqn:Hj; [|discriminate Hok].
  rewrite !result_bind in Hok.
  destruct (get_prop_result metadata "authorization_endpoint")
    as [E|[-> [m E]]]; rewrite E in Hok; simp_res in Hok; [|discriminate Hok].
  rewrite result_bind in Hok.
  destruct (get_prop_result metadata "token_endpoint")
    as [E'|[-> [m E']]]; rewrite E' in Hok; simp_res in Hok; [|discriminate Hok].
  destruct (field metadata "authorization_endpoint") as [a|] eqn:Fa; [|discriminate Hok].
  destruct (field metadata "token_endpoint") as [t|] eqn:Ft; [|discriminate Hok].
  destruct (negb (truthy (Some a)) || negb (truthy (Some t))); [discriminate Hok|].
  rewrite result_bind in Hok.
  destruct (get_prop_result metadata "registration_endpoint")
    as [E''|[-> [m E'']]]; rewrite E'' in Hok; simp_res in Hok; [|discriminate Hok].
  injection Hok as <-. cbn.
  exists wk, res, metadata. repeat split; auto.
Qed.

(** Registration sends one request when the endpoint converts to a
    string, and none otherwise. *)
Lemma trace_registerClient w registrationEndpoint redirectUri clientName :
  exists init,
    trace (Oauth.registerClient w registrationEndpoint redirectUri clientName)
    = (if printable registrationEndpoint
       then [FetchRequest (ToString registrationEndpoint) (Some init)] else [])
    /\ body init = JsonBody (Oauth.registration_body redirectUri clientName).
Proof.
  eexists. split.
  - unfold Oauth.registerClient. rewrite bind_to_string.
    destruct (printable registrationEndpoint); [|reflexivity].
    rewrite trace_bind_pure; [apply trace_fetchJSON|].
    intros result. pure_trace.
  - reflexivity.
Qed.

(** So does the exchange, when the client identifier and the endpoint
    convert. *)
Lemma trace_exchangeCodeForTokens w tokenEndpoint code codeVerifier clientId redirectUri :
  exists init params,
    trace (Oauth.exchangeCodeForTokens w tokenEndpoint code codeVerifier
             clientId redirectUri)
    = (if printable clientId && printable tokenEndpoint
       then [FetchRequest (ToString tokenEndpoint) (Some init)] else [])
    /\ body init = FormBody params.
Proof.
  eexists _, _. split.
  - unfold Oauth.exchangeCodeForTokens. rewrite bind_to_string.
    destruct (printable clientId); [|reflexivity].
    rewrite bind_to_string.
    destruct (printable tokenEndpoint); [|reflexivity].
    rewrite trace_bind_pure; [apply trace_fetchJSON|].
    intros result. pure_trace.
  - reflexivity.
Qed.

Lemma trace_buildAuthorizationUrl w a c r ch st :
  trace (Oauth.buildAuthorizationUrl w a c r ch st) = [].
Proof.
  unfold Oauth.buildAuthorizationUrl. rewrite bind_to_string.
  destruct (printable a); [|reflexivity].
  destruct (URL_with_params w (ToString a) []); [|reflexivity].
  rewrite bind_to_string. destruct (printable c); [|reflexivity].
  pure_trace.
Qed.

Lemma trace_startCallbackServer w port :
  trace (Server.startCallbackServer w port) = [Listen port "127.0.0.1"].
Proof.
  unfold Server.startCallbackServer. rewrite trace_bind_pure; [reflexivity|].
  intros _. pure_trace.
Qed.

Lemma result_startCallbackServer w port :
  result (Server.startCallbackServer w port)
  = match Server.outcome (Server.run w port (listen w) (events w)) with
    | Some (Server.Resolved r) => Ok r
    | Some (Server.Rejected e) => Throw e
    | None => Pending
    end.
Proof.
  unfold Server.startCallbackServer. rewrite result_bind. simp_res.
  destruct (Server.outcome _) as [[r|e]|]; reflexivity.
Qed.

(** [writeAuthFile] only touches the file system; when it returns it
    has written the document it was given, once. *)
Lemma trace_writeAuthFile w data filePath :
  Forall (fun a => is_file_action a = true)
    (trace (Storage.writeAuthFile w data filePath))
  /\ (writes (trace (Storage.writeAuthFile w data filePath)) = []
      \/ writes (trace (Storage.writeAuthFile w data filePath)) = [(filePath, data)])
  /\ (result (Storage.writeAuthFile w data filePath) = Ok tt ->
      writes (trace (Storage.writeAuthFile w data filePath)) = [(filePath, data)]).
Proof.
  unfold Storage.writeAuthFile.
  destruct (negb (existsSync w (path_dirname w filePath)));
    [destruct (mkdirSync w (path_dirname w filePath))|];
    destruct (writeFileSync w filePath); cbn;
    repeat split; auto; try discriminate; repeat constructor.
Qed.

Lemma writes_app t1 t2 : writes (t1 ++ t2) = (writes t1 ++ writes t2)%list.
Proof.
  induction t1 as [|a t1 IH]; [reflexivity|].
  destruct a; cbn; rewrite IH; reflexivity.
Qed.

(** ** Assignment of the entry *)

Lemma trace_assign target key entry : trace (assign target key entry) = [].
Proof.
  unfold assign. destruct target; cbn;
    repeat match goal with
    | |- context [match ?x with _ => _ end] => destruct x
    end; reflexivity.
Qed.

Lemma assoc_set_field_eq k v fields : assoc k (set_field k v fields) = Some v.
Proof.
  induction fields as [|[k' v'] fields IH]; cbn.
  - by rewrite String.eqb_refl.
  - destruct (String.eqb k k') eqn:E; cbn; rewrite ?String.eqb_refl, ?E; auto.
Qed.

Lemma assoc_set_field_ne k k' v fields :
  k' <> k -> assoc k' (set_field k v fields) = assoc k' fields.
Proof.
  intros Hne. apply String.eqb_neq in Hne.
  induction fields as [|[k0 v0] fields IH]; cbn.
  - by rewrite Hne.
  - destruct (String.eqb k k0) eqn:E; cbn.
    + apply String.eqb_eq in E. subst k0. by rewrite Hne.
    + by rewrite IH.
Qed.

Lemma set_item_eq i v items : set_item i v items !! i = Some v.
Proof.
  revert items. induction i as [|i IH]; intros [|x items]; cbn; auto.
Qed.

Lemma set_item_ne i j v items :
  j <> i -> items !! j <> None -> set_item i v items !! j = items !! j.
Proof.
  revert j items. induction i as [|i IH]; intros [|j] [|x items] Hne Hsome;
    cbn in *; try congruence.
  apply IH; [congruence | exact Hsome].
Qed.

Lemma array_index_dec key i : array_index key = Some i -> key = dec (Z.of_nat i).
Proof.
  unfold array_index. destruct (decimal_value key 0) as [n|]; [|discriminate].
  destruct (n <? 2 ^ 32 - 1); cbn [andb]; [|discriminate].
  destruct (String.eqb (dec (Z.of_nat (Z.to_nat n))) key) eqn:E; [|discriminate].
  intros [= <-]. symmetry. by apply String.eqb_eq.
Qed.

(** What a successful assignment leaves in the document. *)
Lemma assign_ok target key entry target' :
  result (assign target key entry) = Ok target' ->
  (keeps_entry target key = true -> entry_at target' key = Some entry)
  /\ (keeps_entry target key = false -> target' = target)
  /\ keeps_entry target' key = keeps_entry target key
  /\ is_array target' = is_array target
  /\ (forall path, only_changes key target (path, target')).
Proof.
  unfold assign, only_changes.
  destruct target as [|b|x|s|items|fields]; cbn [keeps_entry is_array entry_at snd].
  - discriminate.
  - destruct (String.eqb key "__proto__"); [|discriminate].
    intros [= <-]. repeat split; auto; discriminate.
  - destruct (String.eqb key "__proto__"); [|discriminate].
    intros [= <-]. repeat split; auto; discriminate.
  - destruct (String.eqb key "__proto__"); [|discriminate].
    intros [= <-]. repeat split; auto; discriminate.
  - destruct (array_index key) as [i|] eqn:Hi.
    + intros [= <-]. cbn [keeps_entry is_array entry_at]. rewrite Hi.
      split; [intros _; apply set_item_eq|].
      split; [discriminate|].
      split; [reflexivity|]. split; [reflexivity|].
      intros _ k Hk [Harr|Hsome]; [discriminate Harr|]. cbn [snd entry_at].
      destruct (array_index k) as [j|] eqn:Hj; [|reflexivity].
      apply set_item_ne; [|exact Hsome].
      intros ->. apply Hk.
      by rewrite (array_index_dec _ _ Hi), (array_index_dec _ _ Hj).
    + destruct (String.eqb key "length"); [discriminate|].
      intros [= <-]. cbn [keeps_entry is_array entry_at]. rewrite Hi.
      repeat split; auto; discriminate.
  - destruct (assoc key fields) as [v0|] eqn:Hown.
    + intros [= <-]. cbn [keeps_entry is_array entry_at snd].
      rewrite assoc_set_field_eq.
      split; [reflexivity|].
      split; [discriminate|].
      split; [reflexivity|]. split; [reflexivity|].
      intros _ k Hk _. by apply assoc_set_field_ne.
    + destruct (String.eqb key "__proto__") eqn:Hproto; intros [= <-];
        cbn [keeps_entry is_array entry_at snd negb];
        rewrite ?assoc_set_field_eq, ?Hown, ?Hproto; cbn [negb].
      * repeat split; auto; discriminate.
      * repeat split; auto; try discriminate.
        intros _ k Hk _. by apply assoc_set_field_ne.
Qed.

Lemma assign_keeps target key entry target' :
  result (assign target key entry) = Ok target' ->
  keeps_entry target key = true -> entry_at target' key = Some entry.
Proof. intros H. by apply assign_ok in H as [? _]. Qed.

Lemma only_changes_refl name before path : only_changes name before (path, before).
Proof. intros k _ _. reflexivity. Qed.

Lemma only_changes_trans name before path path' middle after :
  is_array middle = is_array before ->
  only_changes name before (path, middle) ->
  only_changes name middle (path', after) ->
  only_changes name before (path', after).
Proof.
  unfold only_changes. cbn [snd]. intros Harr H1 H2 k Hk Hcond.
  rewrite <- (H1 k Hk Hcond). apply H2; [exact Hk|].
  destruct Hcond as [Hc|Hc]; [left; congruence|].
  right. by rewrite (H1 k Hk (or_intror Hc)).
Qed.

(** ** The flow *)

(** C6, as amended. When discovery succeeds on metadata that has no
    [registration_endpoint], the flow fails, and it has done nothing but
    read the auth file and send the discovery request: no registration
    request is sent. It fails with the error for servers without dynamic
    registration when the authorization and the token endpoint convert
    to strings, and otherwise with the error of the conversion made to
    print them. *)
Theorem main_without_registration_endpoint
    (w : World) (config : Config) (endpoints : Oauth.OAuthEndpoints)
    (wellKnown : string) (res : Response) (metadata : JSON) :
  result (Oauth.discoverOAuthEndpoints w (url config)) = Ok endpoints ->
  Oauth.wellKnownUrl w (url config) = ret wellKnown ->
  fetch w wellKnown None = inr res ->
  json res = inl metadata ->
  field metadata "registration_endpoint" = None ->
  result (main w config)
  = Throw (if printable (Oauth.authorizationEndpoint endpoints)
              && printable (Oauth.tokenEndpoint endpoints)
           then no_registration else conversion_failure)
  /\ trace (main w config) = [ReadFile (output config); FetchRequest wellKnown None]
  /\ Forall (fun a => is_registration_request a = false) (trace (main w config)).
Proof.
  intros Hd Hwk Hf Hj Hnone.
  destruct (discover_ok _ _ _ Hd)
    as (wk & res' & metadata' & Hwk' & Hf' & _ & Hj' & _ & _ & Hreg & Ht).
  rewrite Hwk in Hwk'. injection Hwk' as <-.
  rewrite Hf in Hf'. injection Hf' as <-.
  rewrite Hj in Hj'. injection Hj' as <-.
  rewrite Hnone in Hreg.
  destruct (readAuthFile_run w (output config)) as [authData Hread].
  assert (Hmain : result (main w config)
                  = Throw (if printable (Oauth.authorizationEndpoint endpoints)
                              && printable (Oauth.tokenEndpoint endpoints)
                           then no_registration else conversion_failure)
                  /\ trace (main w config)
                     = [ReadFile (output config); FetchRequest wellKnown None]).
  { unfold main. rewrite !result_bind, !trace_bind, Hread. simp_res.
    rewrite !result_bind, !trace_bind, Hd, Ht.
    rewrite !result_bind, !trace_bind, !trace_to_string, !result_to_string, Hreg.
    destruct (printable (Oauth.authorizationEndpoint endpoints));
      destruct (printable (Oauth.tokenEndpoint endpoints));
      split; reflexivity. }
  destruct Hmain as [Hr Htr]. rewrite Htr.
  repeat split; auto.
Qed.

Lemma main_without_registration_endpoint_witness :
  result (main Scenario.unsupported Scenario.config) = Throw no_registration
  /\ trace (main Scenario.unsupported Scenario.config)
     = [ReadFile Scenario.auth_path; FetchRequest Scenario.well_known None]
  /\ Forall (fun a => is_registration_request a = false)
       (trace (main Scenario.unsupported Scenario.config)).
Proof.
  exact (main_without_registration_endpoint Scenario.unsupported Scenario.config
           {| Oauth.authorizationEndpoint := JStr "https://ex.com/auth";
              Oauth.tokenEndpoint := JStr "https://ex.com/token";
              Oauth.registrationEndpoint := None |}
           Scenario.well_known
           {| status := 200; statusText := "OK"; text := None;
              json := inl Scenario.metadata_without_registration |}
           Scenario.metadata_without_registration
           eq_refl eq_refl eq_refl eq_refl eq_refl).
Defined.

(** C6 as stated fails: on metadata whose [authorization_endpoint] is
    the object [{"toString": 1}] and which have no
    [registration_endpoint], discovery succeeds, and the flow fails
    where it prints the endpoint, with the error of the conversion and
    not with the error for servers without dynamic registration. *)
Lemma main_unprintable_endpoint :
  let metadata := Cases.metadata_with_object_endpoint in
  let w := Cases.object_endpoint in
  fetch w Scenario.well_known None = Scenario.respond metadata
  /\ field metadata "registration_endpoint" = None
  /\ result (Oauth.discoverOAuthEndpoints w (url Scenario.config))
     = Ok {| Oauth.authorizationEndpoint :=
               JObj [("toString", JNum (Number.of_Z 1))];
             Oauth.tokenEndpoint := JStr "https://ex.com/token";
             Oauth.registrationEndpoint := None |}
  /\ result (main w Scenario.config)
     = Throw (TypeError "Cannot convert object to primitive value")
  /\ result (main w Scenario.config) <> Throw no_registration.
Proof.
  cbn zeta. do 4 (split; [reflexivity|]). discriminate.
Qed.

Lemma existsb_file_actions (P : Action -> bool) w data filePath :
  (forall a, is_file_action a = true -> P a = false) ->
  existsb P (trace (Storage.writeAuthFile w data filePath)) = false.
Proof.
  intros HP. destruct (trace_writeAuthFile w data filePath) as [H _].
  induction H as [|a t Ha _ IH]; cbn; [reflexivity|].
  rewrite (HP a Ha), IH. reflexivity.
Qed.

Lemma existsb_discover (P : Action -> bool) w serverUrl :
  (forall u, P (FetchRequest u None) = false) ->
  existsb P (trace (Oauth.discoverOAuthEndpoints w serverUrl)) = false.
Proof.
  intros HP. rewrite trace_discover.
  destruct (result (Oauth.wellKnownUrl w serverUrl)); cbn; rewrite ?HP; reflexivity.
Qed.

(** Unfold the next step of a sequence of steps. *)
Ltac advance :=
  repeat (rewrite result_bind || rewrite trace_bind || rewrite existsb_app
          || rewrite writes_app).

(** Pass a conversion to a string: the flow ends there when it throws,
    which [tac] has to account for. *)
Ltac print_step_with tac :=
  advance; rewrite ?forallb_app, ?trace_to_string, ?result_to_string;
  match goal with
  | |- context [printable ?v] =>
      destruct (printable v) eqn:?;
      [|repeat match goal with
               | |- context [printable ?v'] => destruct (printable v')
               end];
      cbn [result trace fst snd throw existsb forallb writes orb andb app];
      [|tac..]
  end.

Ltac print_step :=
  print_step_with ltac:(first [discriminate | repeat split; discriminate]).

(** Use what has been converted so far. *)
Ltac printed :=
  repeat match goal with
         | H : printable ?v = true |- context [printable ?v] => rewrite H
         end;
  cbn [andb].

(** C1. In every flow whose callback delivers a code and a state other
    than the one generated for the flow, no token-exchange request is
    sent and the flow does not succeed; once the flow has reached the
    listener, it fails with the state-mismatch error. *)
Theorem main_state_mismatch (w : World) (config : Config) (cb : Server.CallbackResult) :
  Server.outcome (Server.run w (callbackPort config) (listen w) (events w))
    = Some (Server.Resolved cb) ->
  Server.state cb <> randomUUID w ->
  existsb is_token_request (trace (main w config)) = false
  /\ result (main w config) <> Ok tt
  /\ (existsb is_listen (trace (main w config)) = true ->
      result (main w config) = Throw state_mismatch).
Proof.
  intros Hcb Hne.
  assert (Heqb : String.eqb (Server.state cb) (randomUUID w) = false)
    by (apply String.eqb_neq, Hne).
  destruct (readAuthFile_run w (output config)) as [authData Hread].
  unfold main.
  advance. rewrite Hread. simp_res. advance.
  rewrite !(existsb_discover is_token_request), !(existsb_discover is_listen)
    by reflexivity.
  destruct (result (Oauth.discoverOAuthEndpoints w (url config)))
    as [endpoints|e|]; cbn [existsb is_token_request is_listen orb app];
    [|repeat split; discriminate..].
  print_step. print_step.
  destruct (Oauth.registrationEndpoint endpoints) as [registrationEndpoint|];
    [|repeat split; discriminate].
  destruct (negb (truthy (Some registrationEndpoint)));
    [repeat split; discriminate|].
  print_step. advance.
  destruct (trace_registerClient w registrationEndpoint
              ("http://localhost:" ++ dec (callbackPort config) ++ "/callback")
              (clientName config)) as (init & -> & Hbody).
  printed. cbn [existsb is_token_request is_listen orb]. rewrite Hbody.
  destruct (result (Oauth.registerClient w registrationEndpoint _ _))
    as [client|e|]; cbn [existsb orb app];
    [|repeat split; discriminate..].
  print_step.
  advance. rewrite !trace_assign.
  destruct (result (assign authData _ _)) as [authData1|e|]; cbn [existsb orb app];
    [|repeat split; discriminate..].
  advance.
  rewrite !(existsb_file_actions is_token_request),
    !(existsb_file_actions is_listen) by (intros []; (reflexivity || discriminate)).
  destruct (result (Storage.writeAuthFile w _ (output config)))
    as [[]|e|]; cbn [existsb orb app];
    [|repeat split; discriminate..].
  advance. rewrite trace_buildAuthorizationUrl.
  destruct (result (Oauth.buildAuthorizationUrl w _ _ _ _ _))
    as [authUrl|e|]; cbn [existsb orb app];
    [|repeat split; discriminate..].
  simp_res.
  advance. rewrite trace_startCallbackServer, result_startCallbackServer, Hcb.
  rewrite Heqb. cbn.
  repeat split; discriminate.
Qed.

Lemma main_state_mismatch_witness :
  existsb is_token_request (trace (main Scenario.forged Scenario.config)) = false
  /\ result (main Scenario.forged Scenario.config) <> Ok tt
  /\ (existsb is_listen (trace (main Scenario.forged Scenario.config)) = true ->
      result (main Scenario.forged Scenario.config) = Throw state_mismatch).
Proof.
  apply (main_state_mismatch Scenario.forged Scenario.config
           {| Server.code := "abc"; Server.state := "X" |}).
  - reflexivity.
  - discriminate.
Defined.

Lemma forged_callback_run :
  result (main Scenario.forged Scenario.config) = Throw state_mismatch
  /\ existsb is_listen (trace (main Scenario.forged Scenario.config)) = true
  /\ length (trace (main Scenario.forged Scenario.config)) = 6%nat.
Proof. vm_compute. auto. Qed.

Lemma writes_discover w serverUrl :
  writes (trace (Oauth.discoverOAuthEndpoints w serverUrl)) = [].
Proof.
  rewrite trace_discover.
  destruct (result (Oauth.wellKnownUrl w serverUrl)); reflexivity.
Qed.


Lemma writes_registerClient w ep r c :
  writes (trace (Oauth.registerClient w ep r c)) = [].
Proof.
  destruct (trace_registerClient w ep r c) as (init & -> & _).
  by destruct (printable ep).
Qed.

Lemma writes_exchangeCodeForTokens w t c v i r :
  writes (trace (Oauth.exchangeCodeForTokens w t c v i r)) = [].
Proof.
  destruct (trace_exchangeCodeForTokens w t c v i r) as (init & ps & -> & _).
  by destruct (printable i && printable t).
Qed.



Lemma clientInfo_value_fields c :
  field (clientInfo_value c) "clientId" = Some (clientId c)
  /\ field (clientInfo_value c) "clientSecret" = clientSecret c
  /\ field (clientInfo_value c) "clientIdIssuedAt" = clientIdIssuedAt c
  /\ field (clientInfo_value c) "clientSecretExpiresAt" = clientSecretExpiresAt c.
Proof. destruct c as [a [r|] [x|] [s|]]; cbn; auto. Qed.

(** An object read from the file, and the empty object that stands for
    a file that could not be read, keep an entry under every server name
    but [__proto__]. *)
Lemma keeps_entry_object fields name :
  name <> "__proto__" -> keeps_entry (JObj fields) name = true.
Proof.
  intros Hne. cbn. destruct (assoc name fields); [reflexivity|].
  apply negb_true_iff. by apply String.eqb_neq.
Qed.




Lemma writes_frame w name (before data : JSON) path :
  only_changes name before (path, data) ->
  Forall (fun written : string * JSON =>
            written.1 = path /\ only_changes name before written)
    (writes (trace (Storage.writeAuthFile w data path)))
  /\ (length (writes (trace (Storage.writeAuthFile w data path))) <= 1)%nat.
Proof.
  intros H. destruct (trace_writeAuthFile w data path) as (_ & [->| ->] & _).
  - split; [constructor | cbn; lia].
  - split; [repeat constructor; assumption | cbn; lia].
Qed.

Ltac close_frame :=
  simp_res; cbn [writes app];
  split;
  [ rewrite ?Forall_app; repeat split; first [assumption | apply Forall_nil_2]
  | rewrite ?length_app; cbn [length]; lia ].

(** Every document written by the flow is written to the output path
    and agrees with the document read on every key other than the
    server name; there are at most two writes. *)
Lemma main_frame w config (authData : JSON) :
  result (Storage.readAuthFile w (output config)) = Ok authData ->
  Forall (fun written : string * JSON =>
            written.1 = output config
            /\ only_changes (serverName config) authData written)
    (writes (trace (main w config)))
  /\ (length (writes (trace (main w config))) <= 2)%nat.
Proof.
  intros Hread.
  destruct (readAuthFile_run w (output config)) as [authData' Hrun].
  rewrite Hrun in Hread. injection Hread as ->.
  unfold main.
  advance. rewrite Hrun. simp_res. advance.
  rewrite writes_discover.
  destruct (result (Oauth.discoverOAuthEndpoints w (url config)))
    as [endpoints|e|]; [|close_frame..].
  print_step_with close_frame. print_step_with close_frame.
  destruct (Oauth.registrationEndpoint endpoints) as [registrationEndpoint|];
    [|close_frame].
  destruct (negb (truthy (Some registrationEndpoint))); [close_frame|].
  print_step_with close_frame. advance. rewrite writes_registerClient.
  destruct (result (Oauth.registerClient w registrationEndpoint _ _))
    as [client|e|]; [|close_frame..].
  print_step_with close_frame. advance. rewrite !trace_assign.
  destruct (result (assign authData _ _)) as [authData1|e|] eqn:Ha1;
    [|close_frame..].
  destruct (assign_ok _ _ _ _ Ha1) as (_ & _ & _ & Harr1 & Hframe1).
  advance.
  match goal with
  | |- context [writes (trace (Storage.writeAuthFile w ?d (output config)))] =>
      destruct (writes_frame w (serverName config) authData d (output config)
                  (Hframe1 _)) as [F1 L1];
      set (ws1 := writes (trace (Storage.writeAuthFile w d (output config)))) in *;
      destruct (result (Storage.writeAuthFile w d (output config))) as [[]|e|]
  end; [|close_frame..].
  advance. rewrite trace_buildAuthorizationUrl.
  destruct (result (Oauth.buildAuthorizationUrl w _ _ _ _ _))
    as [authUrl|e|]; [|close_frame..].
  simp_res. advance. rewrite trace_startCallbackServer.
  destruct (result (Server.startCallbackServer w (callbackPort config)))
    as [callback|e|]; [|close_frame..].
  destruct (negb (Server.state callback =? randomUUID w)%string); [close_frame|].
  simp_res. advance. rewrite writes_exchangeCodeForTokens.
  destruct (result (Oauth.exchangeCodeForTokens w _ _ _ _ _))
    as [tokenResponse|e|]; [|close_frame..].
  advance. rewrite trace_expiry.
  destruct (result (expiry _ _)) as [expiresAt|e|]; [|close_frame..].
  advance. rewrite !trace_assign.
  destruct (result (assign authData1 _ _)) as [authData2|e|] eqn:Ha2;
    [|close_frame..].
  destruct (assign_ok _ _ _ _ Ha2) as (_ & _ & _ & _ & Hframe2).
  match goal with
  | |- context [writes (trace (Storage.writeAuthFile w ?d (output config)))] =>
      destruct (writes_frame w (serverName config) authData d (output config)
                  (only_changes_trans _ _ _ _ _ _ Harr1
                     (Hframe1 (output config)) (Hframe2 (output config))))
        as [F2 L2];
      set (ws2 := writes (trace (Storage.writeAuthFile w d (output config)))) in *
  end.
  close_frame.
Qed.



Lemma scenario_A_keeps_notion :
  result (main Scenario.A Scenario.config) = Ok tt
  /\ map (fun written : string * JSON => entry_at written.2 "notion")
       (writes (trace (main Scenario.A Scenario.config)))
     = [Some (entry_value Scenario.notion); Some (entry_value Scenario.notion)].
Proof. vm_compute. auto. Qed.

(** ** The scenarios of the specification, run *)

(** Two callbacks and the timer: the first callback settles, the second
    and the timer change nothing. *)
Lemma listener_two_callbacks_and_timer :
  let st := Server.run Scenario.A 19876 Bound
              [Scenario.callback "authcode1" Scenario.uuid;
               Scenario.callback "authcode1" Scenario.uuid;
               TimerFired] in
  Server.delivered st
  = [Server.Resolved {| Server.code := "authcode1"; Server.state := Scenario.uuid |}]
  /\ Server.listening st = false
  /\ map fst (Server.responses st) = [200; 200].
Proof. vm_compute. auto. Qed.

(** A callback without [state] is answered 400 and the listener keeps
    waiting; the timer then rejects and closes. *)
Lemma listener_bad_request_then_timer :
  Server.listening (Server.run Scenario.A 19876 Bound [Scenario.bad_request]) = true
  /\ Server.delivered (Server.run Scenario.A 19876 Bound [Scenario.bad_request]) = []
  /\ Server.delivered
       (Server.run Scenario.A 19876 Bound [Scenario.bad_request; TimerFired])
     = [Server.Rejected Server.timed_out]
  /\ Server.listening
       (Server.run Scenario.A 19876 Bound [Scenario.bad_request; TimerFired]) = false.
Proof. vm_compute. auto. Qed.

Lemma listener_port_in_use :
  let st := Server.run Scenario.A 19876
              (BindFailed (Some "EADDRINUSE") "listen EADDRINUSE") [TimerFired] in
  Server.delivered st
  = [Server.Rejected
       (Error "Port 19876 is already in use. Try a different port with --callback-port")]
  /\ Server.listening st = false.
Proof. vm_compute. auto. Qed.

(** Scenario A. *)
Lemma scenario_A :
  result (main Scenario.A Scenario.config) = Ok tt
  /\ exists checkpoint final,
       writes (trace (main Scenario.A Scenario.config))
       = [(Scenario.auth_path, checkpoint); (Scenario.auth_path, final)]
       /\ entry_at final "figma"
          = Some (JObj [ ("clientInfo", JObj [ ("clientId", JStr "cid123") ]);
                         ("serverUrl", JStr "https://ex.com/mcp");
                         ("tokens",
                          JObj [ ("accessToken", JStr "tok1");
                                 ("expiresAt", JNum (Number.of_Z 1762003600)) ]) ]).
Proof. split; [vm_compute; reflexivity|]. eexists _, _. split; vm_compute; reflexivity. Qed.

(** The sum of the time and [expires_in] is a sum of doubles; a string
    is appended to the time; an object with a member [toString] makes
    the sum throw. *)
Lemma expiry_is_rounded :
  js_add (Number.of_Z 1762000000) (JNum (Number.of_Z (2 ^ 60)))
  = ret (JNum (Number.of_Z 1152921506368846848))
  /\ js_add (Number.of_Z 1762000000) (JStr "3600") = ret (JStr "17620000003600")
  /\ js_add (Number.of_Z 1762000000) (JObj []) = ret (JStr "1762000000[object Object]")
  /\ js_add (Number.of_Z 1762000000) (JObj [("toString", JNull)])
     = throw conversion_failure
  /\ ToString (JNum (Number.of_Z (10 ^ 21))) = "1e+21"
  /\ ToString (JNum (Number.of_Z (2 ^ 60))) = "1152921504606847000".
Proof. vm_compute. repeat split. Qed.

(** A lifetime that does not convert: the flow fails after the exchange,
    and the checkpoint is the one document written. *)
Lemma lifetime_not_convertible :
  result (main Cases.object_lifetime Scenario.config) = Throw conversion_failure
  /\ existsb is_token_request (trace (main Cases.object_lifetime Scenario.config))
     = true
  /\ length (writes (trace (main Cases.object_lifetime Scenario.config))) = 1%nat.
Proof. vm_compute. auto. Qed.

(** Scenario B: nothing is written. *)
Lemma scenario_B :
  result (main Scenario.B Scenario.config)
  = Throw (Error
      "Failed to discover OAuth endpoints from https://ex.com/.well-known/oauth-authorization-server: HTTP 404 Not Found from https://ex.com/.well-known/oauth-authorization-server: no such page")
  /\ writes (trace (main Scenario.B Scenario.config)) = [].
Proof. vm_compute. auto. Qed.

(* ================================================================== *)
(** * Part III: further properties of the code                          *)
(* ================================================================== *)

(** ** The command line *)

Lemma list_ind_pairs {A} (P : list A -> Prop) :
  P [] -> (forall a, P [a]) -> (forall a b rest, P rest -> P (a :: b :: rest)) ->
  forall l, P l.
Proof.
  intros H0 H1 H2. fix IH 1.
  intros [|a [|b rest]]; [exact H0 | apply H1 | apply H2, IH].
Qed.

Lemma or_default_nonempty v d : d <> "" -> Cli.or_default v d <> "".
Proof.
  intros Hd. unfold Cli.or_default. destruct v as [s|]; [|exact Hd].
  destruct (String.eqb s "") eqn:E; [exact Hd|]. by apply String.eqb_neq.
Qed.

Lemma or_default_some v d : Cli.or_default (Some v) d = v \/ Cli.or_default (Some v) d = d.
Proof. unfold Cli.or_default. destruct (String.eqb v ""); auto. Qed.

(** Case analysis on the flag at the head of the remaining arguments. *)
Ltac flag_cases arg :=
  destruct (String.eqb arg "--url") eqn:?Eurl;
  [|destruct (String.eqb arg "--client-name") eqn:?Ename;
    [|destruct (String.eqb arg "--callback-port") eqn:?Eport;
      [|destruct (String.eqb arg "--output") eqn:?Eout;
        [|destruct (String.eqb arg "--help") eqn:?Ehelp]]]].

(** What the loop returns when it returns. *)
Lemma options_returned parseInt rest :
  forall url clientName callbackPort output out url' clientName' callbackPort' output',
  Cli.options parseInt rest url clientName callbackPort output
  = (out, Cli.Returned (url', clientName', callbackPort', output')) ->
  out = []
  /\ (url' = url \/ In url' rest \/ url' = "")
  /\ (clientName <> "" -> clientName' <> "")
  /\ (output' = output \/ In output' rest)
  /\ (callbackPort' = callbackPort \/ exists v, callbackPort' = parseInt v)
  /\ (~ In "--url" rest -> url' = url)
  /\ (~ In "--client-name" rest -> clientName' = clientName)
  /\ (~ In "--callback-port" rest -> callbackPort' = callbackPort)
  /\ (~ In "--output" rest -> output' = output).
Proof.
  induction rest as [|arg|arg v rest IH] using list_ind_pairs;
    intros url clientName callbackPort output out url' clientName' callbackPort' output'.
  - cbn. intros [= <- <- <- <- <-]. repeat split; auto.
  - cbn [Cli.options]. flag_cases arg; cbn; try discriminate;
      intros [= <- <- <- <- <-]; repeat split; auto;
      try (intros _; discriminate);
      try (intros Hn; exfalso; apply Hn; left;
           apply String.eqb_eq; assumption);
      eauto.
  - cbn [Cli.options]. flag_cases arg; try discriminate; intros H;
      apply IH in H as (Hout & Hu & Hc & Ho & Hp & Nu & Nc & Np & No);
      (split; [exact Hout|]).
    + (* --url v *)
      split; [destruct (or_default_some v "") as [E|E]; rewrite E in Hu;
              destruct Hu as [->|[Hin| ->]]; cbn; auto|].
      split; [exact Hc|].
      split; [destruct Ho; cbn; auto|].
      split; [exact Hp|].
      split; [intros Hn; exfalso; apply Hn; left; by apply String.eqb_eq|].
      repeat split; intros Hn;
        [apply Nc | apply Np | apply No]; intros Hin; apply Hn; cbn; auto.
    + (* --client-name v *)
      split; [destruct Hu as [->|[Hin| ->]]; cbn; auto|].
      split; [intros _; apply Hc, or_default_nonempty; discriminate|].
      split; [destruct Ho; cbn; auto|].
      split; [exact Hp|].
      split; [intros Hn; apply Nu; intros Hin; apply Hn; cbn; auto|].
      split; [intros Hn; exfalso; apply Hn; left; by apply String.eqb_eq|].
      split; intros Hn; [apply Np | apply No]; intros Hin; apply Hn; cbn; auto.
    + (* --callback-port v *)
      split; [destruct Hu as [->|[Hin| ->]]; cbn; auto|].
      split; [exact Hc|].
      split; [destruct Ho; cbn; auto|].
      split; [destruct Hp as [->|[v' ->]]; eauto|].
      split; [intros Hn; apply Nu; intros Hin; apply Hn; cbn; auto|].
      split; [intros Hn; apply Nc; intros Hin; apply Hn; cbn; auto|].
      split; [intros Hn; exfalso; apply Hn; left; by apply String.eqb_eq|].
      intros Hn; apply No; intros Hin; apply Hn; cbn; auto.
    + (* --output v *)
      split; [destruct Hu as [->|[Hin| ->]]; cbn; auto|].
      split; [exact Hc|].
      split; [destruct (or_default_some v output) as [E|E]; rewrite E in Ho;
              destruct Ho as [->|Hin]; cbn; auto|].
      split; [exact Hp|].
      split; [intros Hn; apply Nu; intros Hin; apply Hn; cbn; auto|].
      split; [intros Hn; apply Nc; intros Hin; apply Hn; cbn; auto|].
      split; [intros Hn; apply Np; intros Hin; apply Hn; cbn; auto|].
      intros Hn; exfalso; apply Hn; left; by apply String.eqb_eq.
Qed.

Lemma options_exited parseInt rest :
  forall url clientName callbackPort output out code,
  Cli.options parseInt rest url clientName callbackPort output = (out, Cli.Exited code) ->
  code = 1 /\ last out = Some Cli.Usage.
Proof.
  induction rest as [|arg|arg v rest IH] using list_ind_pairs;
    intros url clientName callbackPort output out code.
  - discriminate.
  - cbn [Cli.options]. flag_cases arg; cbn; try discriminate;
      intros [= <- <-]; auto.
  - cbn [Cli.options]. flag_cases arg; try apply IH;
      intros [= <- <-]; auto.
Qed.

Lemma parseArgs_returned
    (parseInt : string -> option Z) (defaultPath : string) (args : list string)
    (out : list Cli.Output) (config : Config) :
  Cli.parseArgs parseInt defaultPath args = (out, Cli.Returned config) ->
  out = []
  /\ args !! 0%nat = Some "auth"
  /\ args !! 1%nat = Some (serverName config)
  /\ url config <> ""
  /\ In (url config) (drop 2 args)
  /\ 1 <= callbackPort config <= 65535
  /\ clientName config <> ""
  /\ (output config = defaultPath \/ In (output config) (drop 2 args)).
Proof.
  unfold Cli.parseArgs.
  destruct args as [|command [|name rest]]; try discriminate.
  destruct (String.eqb command "auth") eqn:Hauth; [|discriminate]. cbn [negb].
  apply String.eqb_eq in Hauth. subst command.
  destruct (Cli.options parseInt rest "" "Codex" (Some 19876) defaultPath)
    as [out' [[[[u cn] cp] o]|code]] eqn:Hopt; [|discriminate].
  apply options_returned in Hopt as (-> & Hu & Hc & Ho & _).
  destruct (String.eqb u "") eqn:Hne; [discriminate|].
  apply String.eqb_neq in Hne.
  destruct cp as [port|]; [|discriminate].
  destruct ((port <? 1) || (port >? 65535)) eqn:Hrange; [discriminate|].
  intros [= <- <-]. cbn.
  apply orb_false_iff in Hrange as [H1 H2].
  split; [reflexivity|]. split; [reflexivity|]. split; [reflexivity|].
  split; [exact Hne|].
  split; [destruct Hu as [->|[Hin| ->]]; [contradiction | exact Hin | contradiction]|].
  split; [lia|].
  split; [apply Hc; discriminate | exact Ho].
Qed.

(** X1. When [parseArgs] returns, nothing was printed, the first
    argument is [auth], the server name is the second argument, the URL
    is a non-empty argument given after the name, the port lies between
    1 and 65535, the client name is not empty, and the output path is
    the default path or one of the arguments. *)
Theorem parseArgs_returns_valid
    (parseInt : string -> option Z) (defaultPath : string) (args : list string)
    (out : list Cli.Output) (config : Config) :
  Cli.parseArgs parseInt defaultPath args = (out, Cli.Returned config) ->
  out = []
  /\ args !! 0%nat = Some "auth"
  /\ args !! 1%nat = Some (serverName config)
  /\ url config <> ""
  /\ In (url config) (drop 2 args)
  /\ 1 <= callbackPort config <= 65535
  /\ clientName config <> ""
  /\ (output config = defaultPath \/ In (output config) (drop 2 args)).
Proof. apply parseArgs_returned. Qed.

Lemma parseArgs_returns_valid_witness :
  [] = ([] : list Cli.Output)
  /\ ["auth"; "figma"; "--url"; "https://ex.com/mcp"; "--callback-port"; "8080"]
       !! 0%nat = Some "auth"
  /\ ["auth"; "figma"; "--url"; "https://ex.com/mcp"; "--callback-port"; "8080"]
       !! 1%nat = Some "figma"
  /\ "https://ex.com/mcp" <> ""
  /\ In "https://ex.com/mcp"
       (drop 2 ["auth"; "figma"; "--url"; "https://ex.com/mcp"; "--callback-port"; "8080"])
  /\ 1 <= 8080 <= 65535
  /\ "Codex" <> ""
  /\ ("/data/mcp-auth.json" = "/data/mcp-auth.json"
      \/ In "/data/mcp-auth.json"
           (drop 2 ["auth"; "figma"; "--url"; "https://ex.com/mcp"; "--callback-port"; "8080"])).
Proof.
  exact (parseArgs_returns_valid Cli.parse_digits "/data/mcp-auth.json"
           ["auth"; "figma"; "--url"; "https://ex.com/mcp"; "--callback-port"; "8080"]
           []
           {| serverName := "figma"; url := "https://ex.com/mcp";
              clientName := "Codex"; callbackPort := 8080;
              output := "/data/mcp-auth.json" |}
           eq_refl).
Defined.

(** X2. An option whose flag occurs nowhere among the arguments keeps
    its default: the client name ["Codex"], the port 19876, the default
    output path. *)
Theorem parseArgs_defaults
    (parseInt : string -> option Z) (defaultPath : string) (args : list string)
    (out : list Cli.Output) (config : Config) :
  Cli.parseArgs parseInt defaultPath args = (out, Cli.Returned config) ->
  (~ In "--client-name" args -> clientName config = "Codex")
  /\ (~ In "--callback-port" args -> callbackPort config = 19876)
  /\ (~ In "--output" args -> output config = defaultPath).
Proof.
  unfold Cli.parseArgs.
  destruct args as [|command [|name rest]]; try discriminate.
  destruct (negb (String.eqb command "auth")); [discriminate|].
  destruct (Cli.options parseInt rest "" "Codex" (Some 19876) defaultPath)
    as [out' [[[[u cn] cp] o]|code]] eqn:Hopt; [|discriminate].
  apply options_returned in Hopt as (_ & _ & _ & _ & _ & _ & Nc & Np & No).
  destruct (String.eqb u ""); [discriminate|].
  destruct cp as [port|]; [|discriminate].
  destruct ((port <? 1) || (port >? 65535)); [discriminate|].
  intros [= <- <-]. cbn.
  repeat split; intros Hn.
  - apply Nc. intros Hin. apply Hn. cbn. auto.
  - assert (E : Some port = Some 19876); [|by injection E].
    apply Np. intros Hin. apply Hn. cbn. auto.
  - apply No. intros Hin. apply Hn. cbn. auto.
Qed.

Lemma parseArgs_defaults_witness :
  (~ In "--client-name" ["auth"; "figma"; "--url"; "https://ex.com/mcp"] ->
   "Codex" = "Codex")
  /\ (~ In "--callback-port" ["auth"; "figma"; "--url"; "https://ex.com/mcp"] ->
      19876 = 19876)
  /\ (~ In "--output" ["auth"; "figma"; "--url"; "https://ex.com/mcp"] ->
      "/data/mcp-auth.json" = "/data/mcp-auth.json").
Proof.
  exact (parseArgs_defaults Cli.parse_digits "/data/mcp-auth.json"
           ["auth"; "figma"; "--url"; "https://ex.com/mcp"] []
           {| serverName := "figma"; url := "https://ex.com/mcp";
              clientName := "Codex"; callbackPort := 19876;
              output := "/data/mcp-auth.json" |}
           eq_refl).
Defined.

Lemma parseArgs_exited
    (parseInt : string -> option Z) (defaultPath : string) (args : list string)
    (out : list Cli.Output) (code : Z) :
  Cli.parseArgs parseInt defaultPath args = (out, Cli.Exited code) ->
  code = 1
  /\ (last out = Some Cli.Usage
      \/ last out
         = Some (Cli.ErrorLine "Error: --callback-port must be a valid port number")).
Proof.
  unfold Cli.parseArgs, Cli.usage.
  destruct args as [|command [|name rest]]; try (intros [= <- <-]; auto).
  destruct (negb (String.eqb command "auth")); [intros [= <- <-]; auto|].
  destruct (Cli.options parseInt rest "" "Codex" (Some 19876) defaultPath)
    as [out' [[[[u cn] cp] o]|code']] eqn:Hopt.
  - apply options_returned in Hopt as (-> & _).
    destruct (String.eqb u ""); [intros [= <- <-]; auto|].
    destruct cp as [port|]; [|intros [= <- <-]; auto].
    destruct ((port <? 1) || (port >? 65535)); [intros [= <- <-]; auto|].
    discriminate.
  - apply options_exited in Hopt as [-> Hlast]. intros [= <- <-]. auto.
Qed.

(** X3. Whenever [parseArgs] ends the process it does so with status 1,
    [--help] included, after printing the usage text or the message
    about the port. *)
Theorem parseArgs_exit_status
    (parseInt : string -> option Z) (defaultPath : string) (args : list string)
    (out : list Cli.Output) (code : Z) :
  Cli.parseArgs parseInt defaultPath args = (out, Cli.Exited code) ->
  code = 1
  /\ (last out = Some Cli.Usage
      \/ last out
         = Some (Cli.ErrorLine "Error: --callback-port must be a valid port number")).
Proof. apply parseArgs_exited. Qed.

Lemma parseArgs_exit_status_witness :
  1 = 1
  /\ (last [Cli.Usage] = Some Cli.Usage
      \/ last [Cli.Usage]
         = Some (Cli.ErrorLine "Error: --callback-port must be a valid port number")).
Proof.
  exact (parseArgs_exit_status Cli.parse_digits "/data/mcp-auth.json"
           ["auth"; "figma"; "--help"] [Cli.Usage] 1 eq_refl).
Defined.

(** X4. The program ends with status 0 only when the arguments parse and
    the flow returns, in which case nothing was printed to the error
    output; every other ending has status 1; and unless the arguments
    parse, the program does nothing at all: no file is read and no
    request is sent. *)
Theorem program_exit_status
    (parseInt : string -> option Z) (defaultPath : string) (w : World)
    (args : list string) :
  let p := Cli.program parseInt defaultPath w args in
  (Cli.exit_code p = Some 0 \/ Cli.exit_code p = Some 1 \/ Cli.exit_code p = None)
  /\ (Cli.exit_code p = Some 0 ->
      Cli.printed p = []
      /\ exists config,
           Cli.parseArgs parseInt defaultPath args = ([], Cli.Returned config)
           /\ main w config = (Cli.effects p, Ok tt))
  /\ ((forall config, Cli.parseArgs parseInt defaultPath args
                      <> ([], Cli.Returned config)) ->
      Cli.effects p = [] /\ Cli.exit_code p = Some 1).
Proof.
  unfold Cli.program.
  destruct (match args with
            | [] => true
            | first :: _ => String.eqb first "--help" || String.eqb first "-h"
            end) eqn:Hhelp.
  { cbn. repeat split; auto; discriminate. }
  destruct (Cli.parseArgs parseInt defaultPath args) as [out [config|code]] eqn:Hp.
  - destruct (parseArgs_returned _ _ _ _ _ Hp) as (-> & _).
    destruct (main w config) as [t [[]|e|]] eqn:Hm; cbn.
    + split; [auto|]. split; [eauto|]. intros H. by destruct (H config).
    + split; [auto|]. split; [discriminate|]. intros H. by destruct (H config).
    + split; [auto|]. split; [discriminate|]. intros H. by destruct (H config).
  - destruct (parseArgs_exited _ _ _ _ _ Hp) as [-> _]. cbn.
    repeat split; auto; discriminate.
Qed.

(** ** The listener, event by event *)

Lemma unsettled_waits st :
  Server.inv st -> Server.settled st = false ->
  Server.timeout st = true /\ Server.delivered st = [].
Proof.
  intros [H1 H2] Hs. split.
  - destruct (Server.timeout st); [reflexivity|]. rewrite H2 in Hs; done.
  - rewrite Hs in H1. by destruct (Server.delivered st).
Qed.

(** One event on a listener that has not settled. *)
Lemma step_unsettled w port st ev :
  Server.inv st -> Server.settled st = false ->
  match verdict w port ev with
  | Some s => Server.settled (Server.step w port st ev) = true
              /\ Server.delivered (Server.step w port st ev) = [s]
  | None => Server.settled (Server.step w port st ev) = false
            /\ Server.timeout (Server.step w port st ev) = Server.timeout st
            /\ Server.listening (Server.step w port st ev) = Server.listening st
            /\ Server.delivered (Server.step w port st ev) = Server.delivered st
  end.
Proof.
  intros Hinv Hs. destruct (unsettled_waits st Hinv Hs) as [Ht Hd].
  destruct ev as [req| |code msg]; cbn [Server.step verdict].
  - unfold Server.on_request.
    destruct (req_url req) as [u|]; [|cbn; auto].
    destruct (String.prefix "/callback" u); cbn [negb]; [|cbn; auto].
    destruct (truthy_string (searchParams_get w u "error")).
    { unfold Server.settle. cbn. rewrite Hs, Hd. cbn. auto. }
    destruct (searchParams_get w u "code") as [c|]; [|cbn; auto].
    destruct (searchParams_get w u "state") as [s|];
      [|cbn [truthy_string andb]; rewrite andb_false_r; cbn; auto].
    destruct (truthy_string (Some c)); cbn [negb orb andb]; [|cbn; auto].
    destruct (truthy_string (Some s)); cbn [negb]; [|cbn; auto].
    unfold Server.settle. cbn. rewrite Hs, Hd. cbn. auto.
  - unfold Server.on_timeout, Server.settle. rewrite Ht. cbn. rewrite Hs, Hd. cbn. auto.
  - unfold Server.on_error, Server.settle, bind_failure. cbn. rewrite Hs, Hd. cbn. auto.
Qed.

(** Once settled, nothing more is delivered. *)
Lemma step_settled w port st ev :
  Server.settled st = true ->
  Server.settled (Server.step w port st ev) = true
  /\ Server.delivered (Server.step w port st ev) = Server.delivered st.
Proof.
  intros Hs. destruct ev as [req| |code msg]; cbn [Server.step].
  - unfold Server.on_request.
    repeat match goal with
    | |- context [match ?x with _ => _ end] => destruct x
    end; cbn; auto; unfold Server.settle; cbn; rewrite Hs; cbn; auto.
  - unfold Server.on_timeout. destruct (Server.timeout st); [|auto].
    unfold Server.settle. cbn. rewrite Hs. cbn. auto.
  - unfold Server.on_error, Server.settle. cbn. rewrite Hs. cbn. auto.
Qed.

Lemma fold_settled w port evs st :
  Server.settled st = true ->
  Server.delivered (fold_left (Server.step w port) evs st) = Server.delivered st.
Proof.
  revert st. induction evs as [|ev evs IH]; intros st Hs; [reflexivity|].
  cbn. destruct (step_settled w port st ev Hs) as [Hs' Hd'].
  rewrite IH by exact Hs'. exact Hd'.
Qed.

Lemma fold_unsettled w port evs st :
  Server.inv st -> Server.settled st = false ->
  head (Server.delivered (fold_left (Server.step w port) evs st))
  = head (omap (verdict w port) evs).
Proof.
  revert st. induction evs as [|ev evs IH]; intros st Hinv Hs.
  - cbn. destruct (unsettled_waits st Hinv Hs) as [_ ->]. reflexivity.
  - cbn [fold_left]. pose proof (step_unsettled w port st ev Hinv Hs) as Hstep.
    change (omap (verdict w port) (ev :: evs))
      with (match verdict w port ev with
            | Some s => s :: omap (verdict w port) evs
            | None => omap (verdict w port) evs
            end).
    destruct (verdict w port ev) as [s|].
    + destruct Hstep as [Hs' Hd']. rewrite fold_settled by exact Hs'.
      rewrite Hd'. reflexivity.
    + destruct Hstep as (Hs' & _). apply IH; [|exact Hs'].
      by apply ServerFacts.inv_step.
Qed.

(** X5. On a listener that obtained the port, the first terminal event
    wins: whatever the requests, timer events and errors of the server
    and their order, the outcome is what the first event that can settle
    delivers (a timeout for the timer, a rejection for an error of the
    server and for a callback with [error], a resolution for a callback
    with [code] and [state]), and there is no outcome as long as no such
    event has occurred. *)
Theorem first_terminal_event_wins (w : World) (port : Z) (evs : list Event) :
  Server.outcome (Server.run w port Bound evs) = head (omap (verdict w port) evs).
Proof.
  unfold Server.outcome, Server.run. cbn [Server.start].
  apply fold_unsettled; [apply ServerFacts.inv_init | reflexivity].
Qed.

(** X6. A request that is not a complete callback changes nothing but
    the response it gets: any path outside [/callback] is answered 404,
    a callback without [error] that lacks [code] or [state] is answered
    400, and in both cases [settled], the timer, the listening socket
    and the outcome stay as they were. *)
Theorem incomplete_request_keeps_waiting
    (w : World) (port : Z) (req : IncomingMessage) (st : Server.Listener) :
  verdict w port (Request req) = None ->
  let st' := Server.step w port st (Request req) in
  Server.settled st' = Server.settled st
  /\ Server.timeout st' = Server.timeout st
  /\ Server.listening st' = Server.listening st
  /\ Server.delivered st' = Server.delivered st
  /\ exists status page,
       Server.responses st' = (Server.responses st ++ [(status, page)])%list
       /\ status = match req_url req with
                   | Some u => if String.prefix "/callback" u then 400 else 404
                   | None => 404
                   end.
Proof.
  cbn [verdict Server.step]. unfold Server.on_request.
  destruct (req_url req) as [u|]; [|intros _; cbn; eauto 10].
  destruct (String.prefix "/callback" u); cbn [negb]; [|intros _; cbn; eauto 10].
  destruct (truthy_string (searchParams_get w u "error")); [discriminate|].
  destruct (searchParams_get w u "code") as [c|]; [|intros _; cbn; eauto 10].
  destruct (searchParams_get w u "state") as [s|]; [|intros _; cbn; eauto 10].
  destruct (truthy_string (Some c)); cbn [negb orb andb]; [|intros _; cbn; eauto 10].
  destruct (truthy_string (Some s)); cbn [negb]; [discriminate|].
  intros _; cbn; eauto 10.
Qed.

Lemma incomplete_request_keeps_waiting_witness :
  let st := Server.init true in
  let st' := Server.step Scenario.A 19876 st Scenario.bad_request in
  Server.settled st' = false
  /\ Server.timeout st' = true
  /\ Server.listening st' = true
  /\ Server.delivered st' = []
  /\ exists status page,
       Server.responses st' = [(status, page)] /\ status = 400.
Proof.
  exact (incomplete_request_keeps_waiting Scenario.A 19876
           {| req_url := Some "/callback?code=authcode1" |} (Server.init true) eq_refl).
Defined.

Lemma step_responses w port st ev :
  length (Server.responses (Server.step w port st ev))
  = (length (Server.responses st) + if is_request ev then 1 else 0)%nat.
Proof.
  destruct ev as [req| |code msg]; cbn [Server.step is_request].
  - unfold Server.on_request, Server.settle.
    repeat match goal with
    | |- context [match ?x with _ => _ end] => destruct x
    end; cbn; rewrite ?length_app; cbn; lia.
  - unfold Server.on_timeout, Server.settle.
    repeat match goal with
    | |- context [match ?x with _ => _ end] => destruct x
    end; cbn; lia.
  - unfold Server.on_error, Server.settle.
    repeat match goal with
    | |- context [match ?x with _ => _ end] => destruct x
    end; cbn; lia.
Qed.

Lemma fold_responses w port evs st :
  length (Server.responses (fold_left (Server.step w port) evs st))
  = (length (Server.responses st) + length (List.filter is_request evs))%nat.
Proof.
  revert st. induction evs as [|ev evs IH]; intros st; cbn [fold_left].
  - cbn. lia.
  - rewrite IH, step_responses.
    destruct ev; cbn; lia.
Qed.

(** X7. Every request is answered, and answered once: whatever the
    outcome of [listen] and whatever arrives, the listener has written
    as many responses as requests have reached it, those that came after
    it settled included. *)
Theorem every_request_answered_once
    (w : World) (port : Z) (b : BindResult) (evs : list Event) :
  length (Server.responses (Server.run w port b evs))
  = length (List.filter is_request evs).
Proof.
  unfold Server.run. rewrite fold_responses.
  destruct b; cbn; reflexivity.
Qed.

(** X8. When [listen] fails, the promise is rejected with the message
    about the port in use if the error code is [EADDRINUSE] and with the
    failure-to-start message otherwise; nothing that happens later
    changes this outcome, and the listener never holds the port. *)
Theorem bind_failure_outcome
    (w : World) (port : Z) (code : option string) (msg : string)
    (evs : list Event) :
  let st := Server.run w port (BindFailed code msg) evs in
  Server.outcome st = Some (Server.Rejected (bind_failure port code msg))
  /\ Server.listening st = false
  /\ (code = Some "EADDRINUSE" <->
      bind_failure port code msg
      = Error ("Port " ++ dec port
               ++ " is already in use. Try a different port with --callback-port")).
Proof.
  cbn zeta. unfold Server.outcome, Server.run. cbn [Server.start].
  split; [|split].
  - rewrite fold_settled by reflexivity. reflexivity.
  - by apply ServerFacts.fold_not_listening.
  - unfold bind_failure. destruct (bool_decide (code = Some "EADDRINUSE")) eqn:E.
    + apply bool_decide_eq_true in E. split; auto.
    + apply bool_decide_eq_false in E. split; [contradiction|].
      intros H. cbn in H. discriminate H.
Qed.

(** X25. In every execution of the listener, whatever [server.listen]
    leads to and whatever requests, timer events and errors of the
    server follow, in any number and order: at every moment the calls
    made to [resolve] or [reject] number one if [settled] is set and
    none otherwise; the calls made so far are kept by every
    continuation; once the timer event has occurred exactly one outcome
    has been delivered; and as long as no error of the server has
    occurred after a successful [listen], a settled listener is not
    listening, so that after the timer event the port is released. *)
Theorem listener_single_outcome
    (w : World) (port : Z) (b : BindResult) (evs evs' : list Event) :
  let st := Server.run w port b evs in
  let st' := Server.run w port b (evs ++ TimerFired :: evs') in
  length (Server.delivered st) = (if Server.settled st then 1%nat else 0%nat)
  /\ Server.delivered st `prefix_of` Server.delivered st'
  /\ length (Server.delivered st') = 1%nat
  /\ (forallb (fun ev => negb (is_server_error ev)) evs = true ->
      Server.settled st && Server.listening st = false)
  /\ (forallb (fun ev => negb (is_server_error ev)) (evs ++ evs') = true ->
      Server.listening st' = false).
Proof.
  intros st st'.
  pose proof (ServerFacts.inv_run w port b evs) as [H1 H2].
  pose proof (ServerFacts.inv_run w port b (evs ++ TimerFired :: evs')) as [H1' H2'].
  fold st in H1, H2. fold st' in H1', H2'.
  assert (Ht : Server.timeout st' = false).
  { subst st'. unfold Server.run. rewrite fold_left_app. cbn [fold_left].
    apply ServerFacts.timer_spent_fold, ServerFacts.timer_spent. }
  specialize (H2' Ht). rewrite H2' in H1'.
  split; [exact H1|]. split; [|split; [exact H1'|split]].
  - subst st st'. unfold Server.run. rewrite fold_left_app.
    apply ServerFacts.fold_prefix.
  - intros Hevs. subst st. unfold Server.run.
    apply ServerFacts.fold_closed; [exact Hevs | apply ServerFacts.start_closed].
  - intros Hevs.
    assert (Hc : Server.settled st' && Server.listening st' = false).
    { subst st'. unfold Server.run.
      apply ServerFacts.fold_closed; [|apply ServerFacts.start_closed].
      rewrite forallb_app in *. cbn. exact Hevs. }
    rewrite H2' in Hc. exact Hc.
Qed.

(** ** The flow, step by step *)

Lemma trace_registerClient_eq w registrationEndpoint redirect name :
  trace (Oauth.registerClient w registrationEndpoint redirect name)
  = if printable registrationEndpoint
    then [FetchRequest (ToString registrationEndpoint)
            (Some (registration_init redirect name))]
    else [].
Proof.
  unfold Oauth.registerClient. rewrite bind_to_string.
  destruct (printable registrationEndpoint); [|reflexivity].
  rewrite trace_bind_pure; [apply trace_fetchJSON|].
  intros result. pure_trace.
Qed.

Lemma trace_exchange_eq w tokenEndpoint code verifier client redirect :
  trace (Oauth.exchangeCodeForTokens w tokenEndpoint code verifier client redirect)
  = if printable client && printable tokenEndpoint
    then [FetchRequest (ToString tokenEndpoint)
            (Some (token_init code verifier client redirect))]
    else [].
Proof.
  unfold Oauth.exchangeCodeForTokens. rewrite bind_to_string.
  destruct (printable client); [|reflexivity].
  rewrite bind_to_string.
  destruct (printable tokenEndpoint); [|reflexivity].
  rewrite trace_bind_pure; [apply trace_fetchJSON|].
  intros result. pure_trace.
Qed.

(** What returns has converted its arguments. *)
Lemma registerClient_printable w registrationEndpoint redirect name client :
  result (Oauth.registerClient w registrationEndpoint redirect name) = Ok client ->
  printable registrationEndpoint = true.
Proof.
  unfold Oauth.registerClient. rewrite bind_to_string.
  by destruct (printable registrationEndpoint).
Qed.

Lemma exchange_printable w tokenEndpoint code verifier client redirect tr :
  result (Oauth.exchangeCodeForTokens w tokenEndpoint code verifier client redirect)
  = Ok tr ->
  printable client && printable tokenEndpoint = true.
Proof.
  unfold Oauth.exchangeCodeForTokens. rewrite bind_to_string.
  destruct (printable client); [|discriminate].
  rewrite bind_to_string. by destruct (printable tokenEndpoint).
Qed.

Lemma build_ok w a c r ch st authUrl :
  result (Oauth.buildAuthorizationUrl w a c r ch st) = Ok authUrl ->
  URL_with_params w (ToString a) (authorization_params c r ch st) = Some authUrl.
Proof.
  unfold Oauth.buildAuthorizationUrl, authorization_params.
  rewrite bind_to_string. destruct (printable a); [|discriminate].
  destruct (URL_with_params w (ToString a) []); [|discriminate].
  rewrite bind_to_string. destruct (printable c); [|discriminate].
  destruct (URL_with_params w _ _); cbn; [intros [= ->]; reflexivity | discriminate].
Qed.

Lemma writeAuthFile_ok w data path :
  result (Storage.writeAuthFile w data path) = Ok tt ->
  without_mkdir (trace (Storage.writeAuthFile w data path)) = [WriteFile path data 384].
Proof.
  unfold Storage.writeAuthFile.
  destruct (negb (existsSync w (path_dirname w path)));
    [destruct (mkdirSync w (path_dirname w path))|];
    destruct (writeFileSync w path); cbn; intros; (reflexivity || discriminate).
Qed.

Lemma without_mkdir_app t1 t2 :
  without_mkdir (t1 ++ t2) = (without_mkdir t1 ++ without_mkdir t2)%list.
Proof.
  induction t1 as [|a t1 IH]; [reflexivity|].
  destruct a; cbn; rewrite IH; reflexivity.
Qed.

(** Everything a flow that returns has gone through. *)
Lemma main_success_inv w config :
  result (main w config) = Ok tt ->
  exists authData endpoints registrationEndpoint client checkpoint authUrl callback
         tokenResponse expiresAt final,
    let pkce := Oauth.generatePKCE (randomBytes w 32) in
    let entry := checkpoint_entry config client pkce (randomUUID w) in
    Storage.readAuthFile w (output config) = ([ReadFile (output config)], Ok authData)
    /\ result (Oauth.discoverOAuthEndpoints w (url config)) = Ok endpoints
    /\ Oauth.registrationEndpoint endpoints = Some registrationEndpoint
    /\ truthy (Some registrationEndpoint) = true
    /\ result (Oauth.registerClient w registrationEndpoint (redirectUri config)
                 (clientName config)) = Ok client
    /\ result (assign authData (serverName config) (entry_value entry)) = Ok checkpoint
    /\ result (Storage.writeAuthFile w checkpoint (output config)) = Ok tt
    /\ result (Oauth.buildAuthorizationUrl w (Oauth.authorizationEndpoint endpoints)
                 (Oauth.clientId client) (redirectUri config)
                 (Oauth.codeChallenge pkce) (randomUUID w)) = Ok authUrl
    /\ result (Server.startCallbackServer w (callbackPort config)) = Ok callback
    /\ Server.state callback = randomUUID w
    /\ result (Oauth.exchangeCodeForTokens w (Oauth.tokenEndpoint endpoints)
                 (Server.code callback) (Oauth.codeVerifier pkce)
                 (Oauth.clientId client) (redirectUri config)) = Ok tokenResponse
    /\ result (expiry (Date_now_seconds w) (Oauth.expires_in tokenResponse))
       = Ok expiresAt
    /\ printable (Oauth.authorizationEndpoint endpoints)
       && printable (Oauth.tokenEndpoint endpoints)
       && printable registrationEndpoint
       && printable (Oauth.clientId client) = true
    /\ result (assign checkpoint (serverName config)
                 (entry_value (final_entry entry expiresAt tokenResponse)))
       = Ok final
    /\ result (Storage.writeAuthFile w final (output config)) = Ok tt
    /\ trace (main w config)
       = ([ReadFile (output config)]
          ++ trace (Oauth.discoverOAuthEndpoints w (url config))
          ++ trace (Oauth.registerClient w registrationEndpoint (redirectUri config)
                      (clientName config))
          ++ trace (Storage.writeAuthFile w checkpoint (output config))
          ++ [OpenBrowser authUrl; Listen (callbackPort config) "127.0.0.1"]
          ++ trace (Oauth.exchangeCodeForTokens w (Oauth.tokenEndpoint endpoints)
                      (Server.code callback) (Oauth.codeVerifier pkce)
                      (Oauth.clientId client) (redirectUri config))
          ++ trace (Storage.writeAuthFile w final (output config)))%list.
Proof.
  destruct (readAuthFile_run w (output config)) as [authData Hread].
  unfold main. fold (redirectUri config).
  advance. rewrite Hread. simp_res. advance.
  destruct (result (Oauth.discoverOAuthEndpoints w (url config)))
    as [endpoints|e|] eqn:Hd; [|discriminate..].
  advance. rewrite !trace_to_string, !result_to_string.
  destruct (printable (Oauth.authorizationEndpoint endpoints)) eqn:Hpa;
    [|discriminate].
  destruct (printable (Oauth.tokenEndpoint endpoints)) eqn:Hpt; [|discriminate].
  destruct (Oauth.registrationEndpoint endpoints) as [registrationEndpoint|] eqn:Hreg;
    [|discriminate].
  destruct (truthy (Some registrationEndpoint)) eqn:Htruthy; [|discriminate].
  cbn [negb]. advance. rewrite !trace_to_string, !result_to_string.
  destruct (printable registrationEndpoint) eqn:Hpr; [|discriminate].
  destruct (result (Oauth.registerClient w registrationEndpoint _ _))
    as [client|e|] eqn:Hclient; [|discriminate..].
  advance. rewrite !trace_to_string, !result_to_string.
  destruct (printable (Oauth.clientId client)) eqn:Hpc; [|discriminate].
  advance. rewrite !trace_assign.
  destruct (result (assign authData _ _)) as [checkpoint|e|] eqn:Ha1;
    [|discriminate..].
  advance.
  destruct (result (Storage.writeAuthFile w checkpoint (output config)))
    as [[]|e|] eqn:Hw1; [|discriminate..].
  advance. rewrite trace_buildAuthorizationUrl.
  destruct (result (Oauth.buildAuthorizationUrl w _ _ _ _ _))
    as [authUrl|e|] eqn:Hbuild; [|discriminate..].
  simp_res. advance. rewrite trace_startCallbackServer.
  destruct (result (Server.startCallbackServer w (callbackPort config)))
    as [callback|e|] eqn:Hcb; [|discriminate..].
  destruct (Server.state callback =? randomUUID w)%string eqn:Hstate; [|discriminate].
  cbn [negb]. simp_res. advance.
  destruct (result (Oauth.exchangeCodeForTokens w _ _ _ _ _))
    as [tokenResponse|e|] eqn:Hex; [|discriminate..].
  advance. rewrite trace_expiry.
  destruct (result (expiry _ _)) as [expiresAt|e|] eqn:Hexp; [|discriminate..].
  advance. rewrite !trace_assign.
  destruct (result (assign checkpoint _ _)) as [final|e|] eqn:Ha2;
    [|discriminate..].
  intros Hw2.
  exists authData, endpoints, registrationEndpoint, client, checkpoint, authUrl,
    callback, tokenResponse, expiresAt, final.
  cbn zeta. apply String.eqb_eq in Hstate. rewrite Hpa, Hpt, Hpr, Hpc.
  repeat (split; [assumption || reflexivity|]).
  cbn [app]. reflexivity.
Qed.

(** ** Registration and token exchange, response by response *)

Lemma get_prop_object v k :
  v <> JNull -> get_prop v k = ([], Ok (field v k)).
Proof. destruct v; cbn; intros H; (reflexivity || contradiction). Qed.

Lemma register_fields w registrationEndpoint redirect name client :
  result (Oauth.registerClient w registrationEndpoint redirect name) = Ok client ->
  exists res response,
    fetch w (ToString registrationEndpoint) (Some (registration_init redirect name))
    = inr res
    /\ ok res = true
    /\ json res = inl response
    /\ field response "client_id" = Some (Oauth.clientId client)
    /\ truthy (Some (Oauth.clientId client)) = true
    /\ Oauth.clientSecret client = field response "client_secret"
    /\ Oauth.clientIdIssuedAt client = field response "client_id_issued_at"
    /\ Oauth.clientSecretExpiresAt client = field response "client_secret_expires_at".
Proof.
  unfold Oauth.registerClient. fold (registration_init redirect name).
  rewrite bind_to_string. destruct (printable registrationEndpoint); [|discriminate].
  rewrite result_bind, result_fetchJSON.
  destruct (fetch w (ToString registrationEndpoint) _) as [e|res] eqn:Hf;
    [discriminate|].
  destruct (ok res) eqn:Hok; [|discriminate]. cbn [negb].
  destruct (json res) as [response|e] eqn:Hj; [|discriminate].
  rewrite result_bind.
  destruct (get_prop_result response "client_id") as [E|[-> [m E]]];
    rewrite E; simp_res; [|discriminate].
  destruct (field response "client_id") as [cid|] eqn:Fcid; [|discriminate].
  destruct (truthy (Some cid)) eqn:Hcid; [|discriminate]. cbn [negb].
  assert (Hobj : response <> JNull) by (intros ->; discriminate Fcid).
  repeat (rewrite result_bind, (get_prop_object response) by exact Hobj; simp_res).
  intros [= <-]. exists res, response. cbn. repeat split; auto.
Qed.


(** X9. When [registerClient] returns, the server answered the one POST
    of the client metadata with a 2xx status and a JSON document whose
    [client_id] is truthy; the client returned carries that [client_id]
    and the three optional fields exactly as the document has them, a
    field the document lacks being absent. *)
Theorem registerClient_passthrough
    (w : World) (registrationEndpoint : JSON) (redirect name : string)
    (client : Oauth.RegisteredClient) :
  result (Oauth.registerClient w registrationEndpoint redirect name) = Ok client ->
  trace (Oauth.registerClient w registrationEndpoint redirect name)
  = [FetchRequest (ToString registrationEndpoint)
       (Some (registration_init redirect name))]
  /\ exists res response,
       fetch w (ToString registrationEndpoint) (Some (registration_init redirect name))
       = inr res
       /\ ok res = true
       /\ json res = inl response
       /\ field response "client_id" = Some (Oauth.clientId client)
       /\ truthy (Some (Oauth.clientId client)) = true
       /\ Oauth.clientSecret client = field response "client_secret"
       /\ Oauth.clientIdIssuedAt client = field response "client_id_issued_at"
       /\ Oauth.clientSecretExpiresAt client
          = field response "client_secret_expires_at".
Proof.
  intros H. split; [|by apply register_fields].
  by rewrite trace_registerClient_eq, (registerClient_printable _ _ _ _ _ H).
Qed.

Lemma registerClient_passthrough_witness :
  trace (Oauth.registerClient Scenario.A (JStr "https://ex.com/register")
           "http://localhost:19876/callback" "Codex")
  = [FetchRequest "https://ex.com/register"
       (Some (registration_init "http://localhost:19876/callback" "Codex"))]
  /\ exists res response,
       fetch Scenario.A "https://ex.com/register"
         (Some (registration_init "http://localhost:19876/callback" "Codex"))
       = inr res
       /\ ok res = true
       /\ json res = inl response
       /\ field response "client_id" = Some (JStr "cid123")
       /\ truthy (Some (JStr "cid123")) = true
       /\ None = field response "client_secret"
       /\ None = field response "client_id_issued_at"
       /\ None = field response "client_secret_expires_at".
Proof.
  exact (registerClient_passthrough Scenario.A (JStr "https://ex.com/register")
           "http://localhost:19876/callback" "Codex"
           {| Oauth.clientId := JStr "cid123"; Oauth.clientSecret := None;
              Oauth.clientIdIssuedAt := None; Oauth.clientSecretExpiresAt := None |}
           eq_refl).
Defined.


Lemma append_empty (s : string) : s ++ "" = s.
Proof.
  induction s as [|c s IH]; [reflexivity|].
  change (String c (s ++ "") = String c s). by rewrite IH.
Qed.





(** X12. [fetchJSON] sends its request once and never again, whatever
    the answer. It returns a document exactly when the response has a
    2xx status and a body that parses, and then returns that document; a
    failed request and a body that does not parse are rethrown as they
    are; and for a status outside 2xx whose body cannot be read or is
    empty, the message ends with the URL. *)
Theorem fetchJSON_behaviour
    (w : World) (url : string) (options : option RequestInit) :
  trace (Oauth.fetchJSON w url options) = [FetchRequest url options]
  /\ (forall v, result (Oauth.fetchJSON w url options) = Ok v <->
                exists res, fetch w url options = inr res
                            /\ ok res = true /\ json res = inl v)
  /\ (forall e, fetch w url options = inl e ->
                result (Oauth.fetchJSON w url options) = Throw e)
  /\ (forall res e, fetch w url options = inr res -> ok res = true ->
                    json res = inr e ->
                    result (Oauth.fetchJSON w url options) = Throw e)
  /\ (forall res, fetch w url options = inr res -> ok res = false ->
                  text res = None \/ text res = Some "" ->
                  result (Oauth.fetchJSON w url options)
                  = Throw (Error ("HTTP " ++ dec (status res) ++ " "
                                  ++ statusText res ++ " from " ++ url))).
Proof.
  split; [apply trace_fetchJSON|]. rewrite result_fetchJSON.
  split; [|split; [|split]].
  - intros v. split.
    + destruct (fetch w url options) as [e|res]; [discriminate|].
      destruct (ok res) eqn:Hok; [|discriminate]. cbn [negb].
      destruct (json res) as [v'|e] eqn:Hj; [|discriminate].
      intros [= <-]. eauto.
    + intros (res & -> & -> & ->). reflexivity.
  - intros e ->. reflexivity.
  - intros res e -> -> ->. reflexivity.
  - intros res -> -> Htext. cbn [negb]. unfold Oauth.http_failure.
    destruct Htext as [-> | ->]; cbn [default from_option]; cbn [String.eqb negb];
      rewrite append_empty; reflexivity.
Qed.

(** ** Edges of the flow *)

(** X13. A server URL that [new URL] rejects makes the flow fail with
    the [TypeError] of the URL constructor, not with the discovery
    error: the auth file has been read, and no request is sent. *)
Theorem main_malformed_url (w : World) (config : Config) :
  URL_origin w (url config) = None ->
  Oauth.discoverOAuthEndpoints w (url config) = ([], Throw (TypeError "Invalid URL"))
  /\ main w config = ([ReadFile (output config)], Throw (TypeError "Invalid URL")).
Proof.
  intros Hurl.
  assert (Hd : Oauth.discoverOAuthEndpoints w (url config)
               = ([], Throw (TypeError "Invalid URL"))).
  { unfold Oauth.discoverOAuthEndpoints, Oauth.wellKnownUrl. rewrite Hurl. reflexivity. }
  split; [exact Hd|].
  destruct (readAuthFile_run w (output config)) as [authData Hread].
  unfold main. rewrite Hread, Hd. reflexivity.
Qed.

Lemma main_malformed_url_witness :
  Oauth.discoverOAuthEndpoints Scenario.A "not a url"
  = ([], Throw (TypeError "Invalid URL"))
  /\ main Scenario.A Cases.malformed
     = ([ReadFile Scenario.auth_path], Throw (TypeError "Invalid URL")).
Proof. exact (main_malformed_url Scenario.A Cases.malformed eq_refl). Defined.

(** X14. [writeAuthFile] creates the directory of the path only when it
    does not exist; if that creation fails, the error is rethrown and
    nothing is written; whatever it writes is the document it was given,
    to the path it was given, with mode [0o600]; and it returns exactly
    when no file-system call failed. *)
Theorem writeAuthFile_behaviour (w : World) (data : JSON) (path : string) :
  let dir := path_dirname w path in
  let t := trace (Storage.writeAuthFile w data path) in
  let r := result (Storage.writeAuthFile w data path) in
  (forall d, In (MkDir d) t <-> d = dir /\ existsSync w dir = false)
  /\ (forall p d m, In (WriteFile p d m) t -> p = path /\ d = data /\ m = 384)
  /\ (forall e, existsSync w dir = false -> mkdirSync w dir = Some e ->
                r = Throw e /\ writes t = [])
  /\ (r = Ok tt <->
      (existsSync w dir = true \/ mkdirSync w dir = None)
      /\ writeFileSync w path = None).
Proof.
  cbn zeta. unfold Storage.writeAuthFile.
  destruct (existsSync w (path_dirname w path)) eqn:Hex; cbn [negb];
    [|destruct (mkdirSync w (path_dirname w path)) as [e|] eqn:Hmk];
    destruct (writeFileSync w path) as [e'|] eqn:Hwr; cbn;
    (split; [intros d; split; [intros H | intros [-> H]]|]);
    try (split; [intros p d m H|]);
    try (split; [intros e0 H1 H2|]);
    try (split; [intros H | intros [H1 H2]]);
    repeat match goal with
    | H : _ \/ _ |- _ => destruct H
    | H : False |- _ => destruct H
    | H : MkDir _ = MkDir _ |- _ => injection H as <-
    | H : WriteFile _ _ _ = WriteFile _ _ _ |- _ => injection H as <- <- <-
    | H : Some _ = Some _ |- _ => injection H as <-
    end;
    try discriminate; auto.
Qed.

(** X21. A [registration_endpoint] that is present but falsy, such as
    the empty string, is treated like a missing one: the flow fails
    after the discovery request, and no registration request is sent. It
    fails with the error for servers without dynamic registration when
    the authorization and the token endpoint convert to strings, and
    otherwise with the error of the conversion made to print them. *)
Theorem main_falsy_registration_endpoint
    (w : World) (config : Config) (endpoints : Oauth.OAuthEndpoints) (v : JSON) :
  result (Oauth.discoverOAuthEndpoints w (url config)) = Ok endpoints ->
  Oauth.registrationEndpoint endpoints = Some v ->
  truthy (Some v) = false ->
  result (main w config)
  = Throw (if printable (Oauth.authorizationEndpoint endpoints)
              && printable (Oauth.tokenEndpoint endpoints)
           then no_registration else conversion_failure)
  /\ exists wellKnown,
       trace (main w config) = [ReadFile (output config); FetchRequest wellKnown None].
Proof.
  intros Hd Hreg Hv.
  destruct (discover_ok _ _ _ Hd) as (wk & _ & _ & _ & _ & _ & _ & _ & _ & _ & Ht).
  destruct (readAuthFile_run w (output config)) as [authData Hread].
  unfold main. rewrite !result_bind, !trace_bind, Hread. simp_res.
  rewrite !result_bind, !trace_bind, Hd, Ht.
  rewrite !result_bind, !trace_bind, !trace_to_string, !result_to_string, Hreg, Hv.
  destruct (printable (Oauth.authorizationEndpoint endpoints));
    destruct (printable (Oauth.tokenEndpoint endpoints));
    (split; [reflexivity|]); exists wk; reflexivity.
Qed.

Lemma main_falsy_registration_endpoint_witness :
  result (main Cases.empty_registration Scenario.config) = Throw no_registration
  /\ exists wellKnown,
       trace (main Cases.empty_registration Scenario.config)
       = [ReadFile Scenario.auth_path; FetchRequest wellKnown None].
Proof.
  exact (main_falsy_registration_endpoint Cases.empty_registration Scenario.config
           {| Oauth.authorizationEndpoint := JStr "https://ex.com/auth";
              Oauth.tokenEndpoint := JStr "https://ex.com/token";
              Oauth.registrationEndpoint := Some (JStr "") |}
           (JStr "") eq_refl eq_refl eq_refl).
Defined.

(** ** What a flow leaves behind *)

Lemma forallb_discover (P : Action -> bool) w serverUrl :
  (forall u, P (FetchRequest u None) = true) ->
  forallb P (trace (Oauth.discoverOAuthEndpoints w serverUrl)) = true.
Proof.
  intros HP. rewrite trace_discover.
  destruct (result (Oauth.wellKnownUrl w serverUrl)); cbn; rewrite ?HP; reflexivity.
Qed.

Lemma forallb_writeAuthFile w config data :
  forallb (private_file_action w config)
    (trace (Storage.writeAuthFile w data (output config))) = true.
Proof.
  unfold Storage.writeAuthFile.
  destruct (negb (existsSync w (path_dirname w (output config))));
    [destruct (mkdirSync w (path_dirname w (output config)))|];
    destruct (writeFileSync w (output config)); cbn;
    rewrite ?String.eqb_refl; reflexivity.
Qed.

Ltac advance_all :=
  repeat (rewrite result_bind || rewrite trace_bind || rewrite forallb_app).

(** X15. Whatever the outcome of the flow, the only things it does to
    the file system after reading the auth file are to create the
    directory of the output path and to write the output path, always
    with mode [0o600]. *)
Theorem main_private_files (w : World) (config : Config) :
  forallb (private_file_action w config) (trace (main w config)) = true.
Proof.
  destruct (readAuthFile_run w (output config)) as [authData Hread].
  unfold main. fold (redirectUri config).
  advance_all. rewrite Hread. simp_res. advance_all.
  rewrite forallb_discover by reflexivity.
  destruct (result (Oauth.discoverOAuthEndpoints w (url config)))
    as [endpoints|e|]; [|reflexivity..].
  advance_all. print_step_with ltac:(reflexivity). print_step_with ltac:(reflexivity).
  destruct (Oauth.registrationEndpoint endpoints) as [registrationEndpoint|];
    [|reflexivity].
  destruct (negb (truthy (Some registrationEndpoint))); [reflexivity|].
  advance_all. print_step_with ltac:(reflexivity).
  rewrite trace_registerClient_eq. printed.
  destruct (result (Oauth.registerClient w registrationEndpoint _ _))
    as [client|e|]; [|reflexivity..].
  advance_all. print_step_with ltac:(reflexivity).
  advance_all. rewrite !trace_assign.
  destruct (result (assign authData _ _)) as [checkpoint|e|]; [|reflexivity..].
  advance_all. rewrite !forallb_writeAuthFile.
  destruct (result (Storage.writeAuthFile w checkpoint (output config)))
    as [[]|e|]; [|reflexivity..].
  advance_all. rewrite trace_buildAuthorizationUrl.
  destruct (result (Oauth.buildAuthorizationUrl w _ _ _ _ _))
    as [authUrl|e|]; [|reflexivity..].
  simp_res. advance_all. rewrite trace_startCallbackServer.
  destruct (result (Server.startCallbackServer w (callbackPort config)))
    as [callback|e|]; [|reflexivity..].
  destruct (negb (Server.state callback =? randomUUID w)%string); [reflexivity|].
  simp_res. advance_all. rewrite trace_exchange_eq. printed.
  destruct (result (Oauth.exchangeCodeForTokens w _ _ _ _ _))
    as [tokenResponse|e|]; [|reflexivity..].
  advance_all. rewrite trace_expiry.
  destruct (result (expiry _ _)) as [expiresAt|e|]; [|reflexivity..].
  advance_all. rewrite !trace_assign.
  destruct (result (assign checkpoint _ _)) as [final|e|]; [|reflexivity..].
  rewrite forallb_writeAuthFile. reflexivity.
Qed.

(** X16. A flow that returns has done these things in this order,
    directory creations aside: read the auth file, sent the discovery
    request, posted the registration, written the checkpoint, opened the
    browser, started the listener on 127.0.0.1, posted the token
    request, written the final document. *)
Theorem main_success_order (w : World) (config : Config) :
  result (main w config) = Ok tt ->
  exists wellKnown registrationEndpoint tokenEndpoint client code authUrl
         checkpoint final,
    without_mkdir (trace (main w config))
    = [ ReadFile (output config);
        FetchRequest wellKnown None;
        FetchRequest registrationEndpoint
          (Some (registration_init (redirectUri config) (clientName config)));
        WriteFile (output config) checkpoint 384;
        OpenBrowser authUrl;
        Listen (callbackPort config) "127.0.0.1";
        FetchRequest tokenEndpoint
          (Some (token_init code
                   (Oauth.codeVerifier (Oauth.generatePKCE (randomBytes w 32)))
                   client (redirectUri config)));
        WriteFile (output config) final 384 ].
Proof.
  intros Hok.
  destruct (main_success_inv w config Hok)
    as (authData & endpoints & regEp & client & checkpoint & authUrl & callback
        & tr & expires & final & H).
  cbn zeta in H.
  destruct H as (_ & Hd & _ & _ & Hreg & _ & Hw1 & _ & _ & _ & Hex & _ & _ & _ & Hw2
                 & ->).
  destruct (discover_ok _ _ _ Hd) as (wk & _ & _ & _ & _ & _ & _ & _ & _ & _ & Ht).
  rewrite Ht, trace_registerClient_eq, trace_exchange_eq,
    (registerClient_printable _ _ _ _ _ Hreg), (exchange_printable _ _ _ _ _ _ _ Hex).
  rewrite !without_mkdir_app, (writeAuthFile_ok _ _ _ Hw1), (writeAuthFile_ok _ _ _ Hw2).
  cbn. eauto 10.
Qed.

Lemma main_success_order_witness :
  exists wellKnown registrationEndpoint tokenEndpoint client code authUrl
         checkpoint final,
    without_mkdir (trace (main Scenario.A Scenario.config))
    = [ ReadFile Scenario.auth_path;
        FetchRequest wellKnown None;
        FetchRequest registrationEndpoint
          (Some (registration_init (redirectUri Scenario.config) "Codex"));
        WriteFile Scenario.auth_path checkpoint 384;
        OpenBrowser authUrl;
        Listen 19876 "127.0.0.1";
        FetchRequest tokenEndpoint
          (Some (token_init code
                   (Oauth.codeVerifier (Oauth.generatePKCE (randomBytes Scenario.A 32)))
                   client (redirectUri Scenario.config)));
        WriteFile Scenario.auth_path final 384 ].
Proof.
  apply (main_success_order Scenario.A Scenario.config).
  vm_compute. reflexivity.
Defined.

(** X17. In a flow that returns, the pieces of the PKCE exchange belong
    together. The URL opened in the browser is the authorization
    endpoint with the client id, the redirect URI, the state generated
    for the flow and, as [code_challenge], the unpadded base64url SHA-256
    of the verifier; the token request carries that same verifier, the
    same client id and redirect URI, and the code of a callback whose
    state is the generated one; and the listener listens on the port of
    the redirect URI. *)
Theorem main_success_binding (w : World) (config : Config) :
  result (main w config) = Ok tt ->
  let verifier := Oauth.codeVerifier (Oauth.generatePKCE (randomBytes w 32)) in
  exists endpoints client callback authUrl,
    result (Oauth.discoverOAuthEndpoints w (url config)) = Ok endpoints
    /\ In (OpenBrowser authUrl) (trace (main w config))
    /\ URL_with_params w (ToString (Oauth.authorizationEndpoint endpoints))
         (authorization_params client (redirectUri config)
            (Spec.code_challenge verifier) (randomUUID w))
       = Some authUrl
    /\ In (FetchRequest (ToString (Oauth.tokenEndpoint endpoints))
             (Some (token_init (Server.code callback) verifier client
                      (redirectUri config))))
         (trace (main w config))
    /\ Server.outcome (Server.run w (callbackPort config) (listen w) (events w))
       = Some (Server.Resolved callback)
    /\ Server.state callback = randomUUID w
    /\ In (Listen (callbackPort config) "127.0.0.1") (trace (main w config))
    /\ redirectUri config
       = "http://localhost:" ++ dec (callbackPort config) ++ "/callback".
Proof.
  intros Hok verifier.
  destruct (main_success_inv w config Hok)
    as (authData & endpoints & regEp & client & checkpoint & authUrl & callback
        & tr & expires & final & H).
  cbn zeta in H.
  destruct H as (_ & Hd & _ & _ & _ & _ & _ & Hb & Hcb & Hst & Hex & _ & _ & _ & _
                 & ->).
  exists endpoints, (Oauth.clientId client), callback, authUrl.
  apply build_ok in Hb.
  rewrite result_startCallbackServer in Hcb.
  rewrite trace_exchange_eq, (exchange_printable _ _ _ _ _ _ _ Hex).
  split; [exact Hd|].
  split; [rewrite !in_app_iff; cbn; auto 10|].
  split.
  { rewrite <- Hb. f_equal. f_equal.
    unfold Spec.code_challenge. rewrite <- base64url_is_rfc. reflexivity. }
  split; [rewrite !in_app_iff; cbn; auto 10|].
  split.
  { destruct (Server.outcome _) as [[r|e]|]; [|discriminate..].
    by injection Hcb as ->. }
  split; [exact Hst|].
  split; [rewrite !in_app_iff; cbn; auto 10 | reflexivity].
Qed.

Lemma main_success_binding_witness :
  let verifier :=
    Oauth.codeVerifier (Oauth.generatePKCE (randomBytes Scenario.A 32)) in
  exists endpoints client callback authUrl,
    result (Oauth.discoverOAuthEndpoints Scenario.A "https://ex.com/mcp") = Ok endpoints
    /\ In (OpenBrowser authUrl) (trace (main Scenario.A Scenario.config))
    /\ URL_with_params Scenario.A (ToString (Oauth.authorizationEndpoint endpoints))
         (authorization_params client (redirectUri Scenario.config)
            (Spec.code_challenge verifier) Scenario.uuid)
       = Some authUrl
    /\ In (FetchRequest (ToString (Oauth.tokenEndpoint endpoints))
             (Some (token_init (Server.code callback) verifier client
                      (redirectUri Scenario.config))))
         (trace (main Scenario.A Scenario.config))
    /\ Server.outcome (Server.run Scenario.A 19876 Bound (events Scenario.A))
       = Some (Server.Resolved callback)
    /\ Server.state callback = Scenario.uuid
    /\ In (Listen 19876 "127.0.0.1") (trace (main Scenario.A Scenario.config))
    /\ redirectUri Scenario.config = "http://localhost:19876/callback".
Proof.
  apply (main_success_binding Scenario.A Scenario.config).
  vm_compute. reflexivity.
Defined.

(** X18. When the flow has reached the listener and the listener
    rejects, be it for the timeout, for an [error] callback, for a
    failed [listen] or for another error of the server, the flow fails
    with that very error and sends no token request; the auth file has
    been written once; and where the assignment keeps the entry, the
    entry of the server name in the written document still holds the
    verifier and the state of the flow, and no tokens. *)
Theorem main_listener_rejects (w : World) (config : Config) (authData : JSON)
    (e : Exn) :
  result (Storage.readAuthFile w (output config)) = Ok authData ->
  existsb is_listen (trace (main w config)) = true ->
  Server.outcome (Server.run w (callbackPort config) (listen w) (events w))
    = Some (Server.Rejected e) ->
  result (main w config) = Throw e
  /\ existsb is_token_request (trace (main w config)) = false
  /\ exists checkpoint,
       writes (trace (main w config)) = [(output config, checkpoint)]
       /\ (keeps_entry authData (serverName config) = true ->
           exists stored,
             entry_at checkpoint (serverName config) = Some stored
             /\ field stored "codeVerifier"
                = Some (JStr (Oauth.codeVerifier
                                (Oauth.generatePKCE (randomBytes w 32))))
             /\ field stored "oauthState" = Some (JStr (randomUUID w))
             /\ field stored "tokens" = None).
Proof.
  intros Hread Hlisten Hcb. revert Hlisten.
  destruct (readAuthFile_run w (output config)) as [authData' Hrun].
  rewrite Hrun in Hread. injection Hread as ->.
  unfold main.
  advance. rewrite Hrun. simp_res. advance.
  rewrite !(existsb_discover is_token_request), !(existsb_discover is_listen),
    writes_discover by reflexivity.
  destruct (result (Oauth.discoverOAuthEndpoints w (url config)))
    as [endpoints|e0|]; cbn [existsb is_listen orb app]; [|discriminate..].
  print_step. print_step.
  destruct (Oauth.registrationEndpoint endpoints) as [registrationEndpoint|];
    [|discriminate].
  destruct (negb (truthy (Some registrationEndpoint))); [discriminate|].
  print_step.
  advance. rewrite writes_registerClient, trace_registerClient_eq. printed.
  cbn [existsb is_token_request is_listen registration_init body orb].
  destruct (result (Oauth.registerClient w registrationEndpoint _ _))
    as [client|e0|]; cbn [existsb orb app]; [|discriminate..].
  print_step.
  advance. rewrite !trace_assign.
  destruct (result (assign authData _ _)) as [checkpoint|e0|] eqn:Ha1;
    cbn [existsb orb app writes]; [|discriminate..].
  advance.
  rewrite !(existsb_file_actions is_token_request),
    !(existsb_file_actions is_listen) by (intros []; (reflexivity || discriminate)).
  destruct (trace_writeAuthFile w checkpoint (output config)) as (_ & _ & Hw1).
  destruct (result (Storage.writeAuthFile w checkpoint (output config)))
    as [[]|e0|]; cbn [existsb orb app];
    [rewrite (Hw1 eq_refl); clear Hw1|discriminate..].
  advance. rewrite trace_buildAuthorizationUrl.
  destruct (result (Oauth.buildAuthorizationUrl w _ _ _ _ _))
    as [authUrl|e0|]; cbn [existsb orb app]; [|discriminate..].
  simp_res. advance.
  rewrite trace_startCallbackServer, result_startCallbackServer, Hcb.
  cbn. intros _.
  split; [reflexivity|]. split; [reflexivity|].
  eexists. split; [reflexivity|].
  intros Hkeeps. eexists. split; [exact (assign_keeps _ _ _ _ Ha1 Hkeeps)|].
  repeat split.
Qed.

Lemma main_listener_rejects_witness :
  result (main Cases.C Scenario.config) = Throw Server.timed_out
  /\ existsb is_token_request (trace (main Cases.C Scenario.config)) = false
  /\ exists checkpoint,
       writes (trace (main Cases.C Scenario.config))
       = [(Scenario.auth_path, checkpoint)]
       /\ (keeps_entry Scenario.existing "figma" = true ->
           exists stored,
             entry_at checkpoint "figma" = Some stored
             /\ field stored "codeVerifier"
                = Some (JStr (Oauth.codeVerifier
                                (Oauth.generatePKCE (randomBytes Cases.C 32))))
             /\ field stored "oauthState" = Some (JStr Scenario.uuid)
             /\ field stored "tokens" = None).
Proof.
  apply (main_listener_rejects Cases.C Scenario.config Scenario.existing
           Server.timed_out).
  - vm_compute. reflexivity.
  - vm_compute. reflexivity.
  - vm_compute. reflexivity.
Defined.

(** X19. Nothing is written before the client is registered: whenever
    the flow writes the auth file at all, discovery and registration
    have succeeded, and the first document written is the document read
    at the start after the assignment, under the server name, of the
    checkpoint entry, which holds the registered client, the verifier,
    the state and the server URL; where the assignment keeps the entry,
    the written document holds it under the server name. *)
Theorem main_first_write (w : World) (config : Config)
    (path : string) (data : JSON) (rest : list (string * JSON)) :
  writes (trace (main w config)) = (path, data) :: rest ->
  exists authData endpoints registrationEndpoint client,
    let entry :=
      {| tokens := None;
         clientInfo :=
           Some {| clientId := Oauth.clientId client;
                   clientSecret := Oauth.clientSecret client;
                   clientIdIssuedAt := Oauth.clientIdIssuedAt client;
                   clientSecretExpiresAt := Oauth.clientSecretExpiresAt client |};
         codeVerifier :=
           Some (Oauth.codeVerifier (Oauth.generatePKCE (randomBytes w 32)));
         oauthState := Some (randomUUID w);
         serverUrl := Some (url config) |} in
    result (Storage.readAuthFile w (output config)) = Ok authData
    /\ result (Oauth.discoverOAuthEndpoints w (url config)) = Ok endpoints
    /\ Oauth.registrationEndpoint endpoints = Some registrationEndpoint
    /\ result (Oauth.registerClient w registrationEndpoint (redirectUri config)
                 (clientName config)) = Ok client
    /\ path = output config
    /\ result (assign authData (serverName config) (entry_value entry)) = Ok data
    /\ (keeps_entry authData (serverName config) = true ->
        entry_at data (serverName config) = Some (entry_value entry)).
Proof.
  destruct (readAuthFile_run w (output config)) as [authData Hread].
  unfold main. fold (redirectUri config).
  advance. rewrite Hread. simp_res. advance.
  rewrite writes_discover.
  destruct (result (Oauth.discoverOAuthEndpoints w (url config)))
    as [endpoints|e|] eqn:Hd; [|discriminate..].
  print_step. print_step.
  destruct (Oauth.registrationEndpoint endpoints) as [registrationEndpoint|] eqn:Hreg;
    [|discriminate].
  destruct (negb (truthy (Some registrationEndpoint))); [discriminate|].
  print_step. advance. rewrite writes_registerClient.
  destruct (result (Oauth.registerClient w registrationEndpoint _ _))
    as [client|e|] eqn:Hclient; [|discriminate..].
  print_step. advance. rewrite !trace_assign.
  destruct (result (assign authData _ _)) as [checkpoint|e|] eqn:Ha1;
    [|discriminate..].
  advance.
  destruct (trace_writeAuthFile w checkpoint (output config))
    as (_ & [Hw1|Hw1] & Hw1'); rewrite Hw1;
    destruct (result (Storage.writeAuthFile w checkpoint (output config)))
      as [[]|e|]; try discriminate.
  - specialize (Hw1' eq_refl). rewrite Hw1 in Hw1'. discriminate Hw1'.
  - cbn [app writes]. intros [= <- <- _].
    exists authData, endpoints, registrationEndpoint, client. cbn zeta.
    repeat (split; [assumption || reflexivity|]).
    exact (assign_keeps _ _ _ _ Ha1).
  - cbn [app writes]. intros [= <- <- _].
    exists authData, endpoints, registrationEndpoint, client. cbn zeta.
    repeat (split; [assumption || reflexivity|]).
    exact (assign_keeps _ _ _ _ Ha1).
  - cbn [app writes]. intros [= <- <- _].
    exists authData, endpoints, registrationEndpoint, client. cbn zeta.
    repeat (split; [assumption || reflexivity|]).
    exact (assign_keeps _ _ _ _ Ha1).
Qed.

Lemma main_first_write_witness :
  exists authData endpoints registrationEndpoint client,
    let entry :=
      {| tokens := None;
         clientInfo :=
           Some {| clientId := Oauth.clientId client;
                   clientSecret := Oauth.clientSecret client;
                   clientIdIssuedAt := Oauth.clientIdIssuedAt client;
                   clientSecretExpiresAt := Oauth.clientSecretExpiresAt client |};
         codeVerifier :=
           Some (Oauth.codeVerifier (Oauth.generatePKCE (randomBytes Scenario.A 32)));
         oauthState := Some Scenario.uuid;
         serverUrl := Some "https://ex.com/mcp" |} in
    result (Storage.readAuthFile Scenario.A Scenario.auth_path) = Ok authData
    /\ result (Oauth.discoverOAuthEndpoints Scenario.A "https://ex.com/mcp") = Ok endpoints
    /\ Oauth.registrationEndpoint endpoints = Some registrationEndpoint
    /\ result (Oauth.registerClient Scenario.A registrationEndpoint
                 (redirectUri Scenario.config) "Codex") = Ok client
    /\ Scenario.auth_path = Scenario.auth_path
    /\ result (assign authData "figma" (entry_value entry))
       = Ok (nth 0 (writes (trace (main Scenario.A Scenario.config))) ("", JNull)).2
    /\ (keeps_entry authData "figma" = true ->
        entry_at (nth 0 (writes (trace (main Scenario.A Scenario.config)))
                    ("", JNull)).2 "figma"
        = Some (entry_value entry)).
Proof.
  apply (main_first_write Scenario.A Scenario.config Scenario.auth_path
           (nth 0 (writes (trace (main Scenario.A Scenario.config))) ("", JNull)).2
           (tail (writes (trace (main Scenario.A Scenario.config))))).
  vm_compute. reflexivity.
Defined.



(** ** The encodings *)

Lemma byte_bound (a : byte) : (Byte.to_N a < 256)%N.
Proof. pose proof (Byte.to_N_bounded a). lia. Qed.

Lemma byte_inj (a b : byte) : Byte.to_N a = Byte.to_N b -> a = b.
Proof.
  intros H. apply (f_equal Byte.of_N) in H.
  rewrite !Byte.of_to_N in H. by injection H.
Qed.

Lemma lor_shiftl (x y k : N) :
  (y < 2 ^ k)%N -> N.lor (N.shiftl x k) y = (x * 2 ^ k + y)%N.
Proof.
  intros Hy. rewrite <- N.shiftl_mul_pow2.
  rewrite <- N.lxor_lor, <- N.add_nocarry_lxor; try reflexivity.
  all: apply N.bits_inj_0; intros n; rewrite N.land_spec;
    destruct (N.lt_ge_cases n k) as [Hn|Hn];
    [ rewrite N.shiftl_spec_low by exact Hn; reflexivity
    | destruct (N.eq_dec y 0%N) as [->|Hy0];
      [ rewrite N.bits_0; apply andb_false_r
      | rewrite (N.bits_above_log2 y n), andb_false_r; [reflexivity|];
        apply N.lt_le_trans with k; [apply N.log2_lt_pow2; lia | exact Hn] ] ].
Qed.

Lemma quantum_value a b c :
  Buffer.quantum a b c
  = (Byte.to_N a * 65536 + (Byte.to_N b * 256 + Byte.to_N c))%N.
Proof.
  unfold Buffer.quantum.
  pose proof (byte_bound a). pose proof (byte_bound b). pose proof (byte_bound c).
  rewrite (lor_shiftl (Byte.to_N b) (Byte.to_N c) 8) by (cbn; lia).
  rewrite (lor_shiftl (Byte.to_N a) _ 16) by (cbn; lia).
  reflexivity.
Qed.

Lemma sextet_value q k :
  Buffer.sextet q k = ((q / 2 ^ (18 - 6 * k)) mod 64)%N.
Proof.
  unfold Buffer.sextet. change 63%N with (N.ones 6).
  rewrite N.land_ones, N.shiftr_div_pow2. reflexivity.
Qed.

Ltac sextets :=
  rewrite ?sextet_value, ?quantum_value in *;
  cbn [N.sub N.mul N.pow Pos.pow Pos.mul Pos.sub] in *;
  repeat match goal with
  | a : byte |- _ =>
      lazymatch goal with
      | _ : (Byte.to_N a < 256)%N |- _ => fail
      | _ => pose proof (byte_bound a)
      end
  end.

Lemma first_byte_inj a b c a' b' c' :
  Buffer.sextet (Buffer.quantum a b c) 0 = Buffer.sextet (Buffer.quantum a' b' c') 0 ->
  Buffer.sextet (Buffer.quantum a b c) 1 = Buffer.sextet (Buffer.quantum a' b' c') 1 ->
  a = a'.
Proof.
  intros H0 H1. apply byte_inj. sextets.
  change (2 ^ (18 - 6 * 0))%N with 262144%N in *.
  change (2 ^ (18 - 6 * 1))%N with 4096%N in *.
  zify. Z.to_euclidean_division_equations. lia.
Qed.

Lemma second_byte_inj a b c a' b' c' :
  Buffer.sextet (Buffer.quantum a b c) 1 = Buffer.sextet (Buffer.quantum a' b' c') 1 ->
  Buffer.sextet (Buffer.quantum a b c) 2 = Buffer.sextet (Buffer.quantum a' b' c') 2 ->
  b = b'.
Proof.
  intros H1 H2. apply byte_inj. sextets.
  change (2 ^ (18 - 6 * 1))%N with 4096%N in *.
  change (2 ^ (18 - 6 * 2))%N with 64%N in *.
  zify. Z.to_euclidean_division_equations. lia.
Qed.

Lemma third_byte_inj a b c a' b' c' :
  Buffer.sextet (Buffer.quantum a b c) 2 = Buffer.sextet (Buffer.quantum a' b' c') 2 ->
  Buffer.sextet (Buffer.quantum a b c) 3 = Buffer.sextet (Buffer.quantum a' b' c') 3 ->
  c = c'.
Proof.
  intros H2 H3. apply byte_inj. sextets.
  change (2 ^ (18 - 6 * 2))%N with 64%N in *.
  change (2 ^ (18 - 6 * 3))%N with 1%N in *.
  zify. Z.to_euclidean_division_equations. lia.
Qed.

Lemma url_digit_inj i j :
  (i < 64)%N -> (j < 64)%N ->
  Buffer.digit Buffer.url_alphabet i = Buffer.digit Buffer.url_alphabet j -> i = j.
Proof.
  intros Hi Hj H. unfold Buffer.digit in H.
  assert (Hall : forallb (fun n => forallb (fun m =>
            implb (Ascii.eqb (nth n Buffer.url_alphabet "A"%char)
                             (nth m Buffer.url_alphabet "A"%char))
                  (Nat.eqb n m)) (seq 0 64)) (seq 0 64) = true)
    by (vm_compute; reflexivity).
  rewrite forallb_forall in Hall.
  specialize (Hall (N.to_nat i)). rewrite forallb_forall in Hall.
  specialize (Hall ltac:(apply in_seq; lia) (N.to_nat j) ltac:(apply in_seq; lia)).
  rewrite H, Ascii.eqb_refl in Hall. cbn in Hall.
  apply Nat.eqb_eq in Hall. lia.
Qed.

Lemma url_sextet_inj q q' k :
  Buffer.digit Buffer.url_alphabet (Buffer.sextet q k)
  = Buffer.digit Buffer.url_alphabet (Buffer.sextet q' k) ->
  Buffer.sextet q k = Buffer.sextet q' k.
Proof. apply url_digit_inj; apply sextet_lt. Qed.

Lemma base64url_inj bs : forall bs', Buffer.base64url bs = Buffer.base64url bs' -> bs = bs'.
Proof.
  intros bs' H.
  assert (Hlen : length bs = length bs').
  { apply (f_equal String.length) in H. rewrite !base64url_length in H.
    pose proof (Nat.div_mod_eq (4 * length bs + 2) 3).
    pose proof (Nat.div_mod_eq (4 * length bs' + 2) 3).
    pose proof (Nat.mod_upper_bound (4 * length bs + 2) 3 ltac:(discriminate)).
    pose proof (Nat.mod_upper_bound (4 * length bs' + 2) 3 ltac:(discriminate)).
    lia. }
  revert bs' H Hlen.
  induction bs as [|a|a b|a b c rest IH] using list_ind3;
    intros [|a' [|b' [|c' rest']]] H Hlen; cbn [length] in Hlen;
    try (exfalso; lia); cbn [Buffer.base64url] in H.
  - reflexivity.
  - injection H as H0 H1. apply url_sextet_inj in H0, H1.
    f_equal. eapply first_byte_inj; eassumption.
  - injection H as H0 H1 H2. apply url_sextet_inj in H0, H1, H2.
    f_equal; [eapply first_byte_inj; eassumption|].
    f_equal. eapply second_byte_inj; eassumption.
  - injection H as H0 H1 H2 H3 Hrest. apply url_sextet_inj in H0, H1, H2, H3.
    f_equal; [eapply first_byte_inj; eassumption|].
    f_equal; [eapply second_byte_inj; eassumption|].
    f_equal; [eapply third_byte_inj; eassumption|].
    apply IH; [exact Hrest | lia].
Qed.

Lemma round_length s kw : length (SHA256.round s kw) = length s.
Proof.
  unfold SHA256.round.
  destruct s as [|a [|b [|c [|d [|e [|f [|g [|h [|i s]]]]]]]]]; reflexivity.
Qed.

Lemma rounds_length kws s : length (fold_left SHA256.round kws s) = length s.
Proof.
  revert s. induction kws as [|kw kws IH]; intros s; [reflexivity|].
  cbn. rewrite IH. apply round_length.
Qed.

Lemma compress_length h block : length (SHA256.compress h block) = length h.
Proof.
  unfold SHA256.compress.
  rewrite length_map, length_combine, rounds_length. lia.
Qed.

Lemma blocks_length n ws h : length (SHA256.blocks n ws h) = length h.
Proof.
  revert ws h. induction n as [|n IH]; intros ws h; [reflexivity|].
  cbn. rewrite IH. apply compress_length.
Qed.

Lemma words_bytes_length ws :
  length (concat (map SHA256.word_bytes ws)) = (4 * length ws)%nat.
Proof. induction ws as [|x ws IH]; cbn; [reflexivity|]. rewrite IH. lia. Qed.

Lemma digest_length msg : length (SHA256.digest msg) = 32%nat.
Proof.
  unfold SHA256.digest. rewrite words_bytes_length, blocks_length.
  vm_compute. reflexivity.
Qed.

Lemma base64url_alphabet bs : all_chars base64url_char (Buffer.base64url bs) = true.
Proof.
  assert (Hd : forall i, (i < 64)%N ->
            base64url_char (Buffer.digit Buffer.url_alphabet i) = true).
  { apply (below_64 (fun n => base64url_char (nth n Buffer.url_alphabet "A"%char))).
    vm_compute. reflexivity. }
  induction bs as [|a|a b|a b c rest IH] using list_ind3;
    cbn [Buffer.base64url all_chars];
    rewrite ?Hd by apply sextet_lt; auto.
Qed.

(** X22. The stripping step of [generatePKCE] never removes anything:
    the verifier is exactly the base64url encoding of the random bytes,
    so that 32 bytes give exactly 43 characters. The challenge, for any
    verifier, has exactly 43 characters, all of them letters, digits,
    [-] or [_]. *)
Theorem generatePKCE_shape (verifierBytes : list byte) :
  let pkce := Oauth.generatePKCE verifierBytes in
  Oauth.codeVerifier pkce = Buffer.base64url verifierBytes
  /\ (length verifierBytes = 32%nat -> String.length (Oauth.codeVerifier pkce) = 43%nat)
  /\ String.length (Oauth.codeChallenge pkce) = 43%nat
  /\ all_chars base64url_char (Oauth.codeChallenge pkce) = true
  /\ all_chars base64url_char (Oauth.codeVerifier pkce) = true.
Proof.
  cbn zeta. split; [apply verifier_is_encoding|].
  split.
  { intros Hlen. rewrite verifier_is_encoding, base64url_length, Hlen. reflexivity. }
  split.
  { cbn [Oauth.generatePKCE Oauth.codeChallenge].
    rewrite base64url_length, digest_length. reflexivity. }
  split.
  { cbn [Oauth.generatePKCE Oauth.codeChallenge]. apply base64url_alphabet. }
  rewrite verifier_is_encoding. apply base64url_alphabet.
Qed.

(** X23. No entropy is lost between the random bytes and the verifier:
    two draws that give the same verifier are the same bytes. *)
Theorem generatePKCE_verifier_injective (bytes1 bytes2 : list byte) :
  Oauth.codeVerifier (Oauth.generatePKCE bytes1)
  = Oauth.codeVerifier (Oauth.generatePKCE bytes2) ->
  bytes1 = bytes2.
Proof.
  rewrite !verifier_is_encoding. apply base64url_inj.
Qed.

Lemma generatePKCE_verifier_injective_witness :
  repeat "255"%byte 32 = repeat "255"%byte 32.
Proof.
  exact (generatePKCE_verifier_injective (repeat "255"%byte 32)
           (repeat "255"%byte 32) eq_refl).
Defined.

(** ** An auth file that cannot be read *)

(** X24. When the auth file cannot be read, or its content does not
    parse, the flow goes on as if the file were empty, and every
    document it then writes holds nothing under any key other than the
    server name: whatever the file held before is replaced. *)
Theorem main_replaces_unreadable_file (w : World) (config : Config) :
  match readFileSync w (output config) with
  | inr _ => True
  | inl content =>
      match JSON_parse w content with
      | inr _ => True
      | inl _ => False
      end
  end ->
  Forall (fun written : string * JSON =>
            forall k : string, k <> serverName config -> entry_at written.2 k = None)
    (writes (trace (main w config))).
Proof.
  intros Hbad.
  assert (Hread : result (Storage.readAuthFile w (output config)) = Ok (JObj [])).
  { unfold Storage.readAuthFile.
    destruct (readFileSync w (output config)) as [content|e]; [|reflexivity].
    destruct (JSON_parse w content) as [parsed|e]; [destruct Hbad | reflexivity]. }
  eapply Forall_impl; [exact (proj1 (main_frame w config (JObj []) Hread))|].
  intros written [_ Hframe] k Hk. rewrite (Hframe k Hk); [reflexivity|].
  left. reflexivity.
Qed.

Lemma main_replaces_unreadable_file_witness :
  Forall (fun written : string * JSON =>
            forall k : string, k <> "figma" -> entry_at written.2 k = None)
    (writes (trace (main Scenario.A Cases2.fresh_output)))
  /\ length (writes (trace (main Scenario.A Cases2.fresh_output))) = 2%nat.
Proof.
  split; [|vm_compute; reflexivity].
  exact (main_replaces_unreadable_file Scenario.A Cases2.fresh_output I).
Defined.
